(** * Drive-to-Facebook video transfer: a shallow embedding of
    [up_down_gui_1752728846814.py] and the properties of its three operations.

    The embedding follows the Python source function by function:
    - [convert_drive_link_to_file_id] (identifier resolution),
    - [download_video_file] (the Fetcher),
    - [upload_to_facebook] (the Uploader),
    - [test_token] (the Credential Checker).

    Conventions.
    - A Python [str] is a [string] whose characters are code points below 256
      (Latin-1); a [bytes] object is a [list byte].
    - A decoded JSON document is a [json] value.  Numbers are integers: the
      Graph API sends identifiers, sizes and offsets as integers or decimal
      strings, and fractional numbers are outside the model.
    - [log.insert(tk.END, text)] appends one [event] to the log; an event keeps
      the values interpolated into the f-string of the source line.
    - The network is a script: the list of replies the servers give, in the
      order the requests are made.  A request made when the script is empty
      never returns ([Blocked]); the source sets no timeout.
    - An exception is a value of [exn]; a computation that may raise returns
      [exc A].  The exceptions modelled are those the values decide (types,
      number syntax, offsets, arithmetic), a missing input file, and those of
      the network.  A widget or a disk that fails, and memory that runs out,
      are not modelled.
    - The GUI ([run_gui]) and the threads it starts are outside the model. *)

From Stdlib Require Import ZArith List String Ascii Bool Lia Strings.Byte.
From Stdlib Require Import DecimalString.
Import ListNotations.

Set Warnings "-register-all".

(** ** Python values *)

Module Py.

Local Open Scope string_scope.

(** Exceptions deriving from [Exception] that the modelled calls can raise.
    [RequestException] stands for what [requests] raises: connection and
    chunked-transfer failures, and JSON decoding errors of [.json()]. *)
Inductive exn : Type :=
| TypeError
| ValueError
| OverflowError
| AttributeError
| ZeroDivisionError
| KeyError
| OSError
| RequestException.

Inductive exc (A : Type) : Type :=
| Ok (a : A)
| Raise (e : exn).
Arguments Ok {A} a.
Arguments Raise {A} e.

Definition bind {A B : Type} (m : exc A) (k : A -> exc B) : exc B :=
  match m with
  | Ok a => k a
  | Raise e => Raise e
  end.

Notation "'let*' x ':=' m 'in' k" := (bind m (fun x => k))
  (at level 10, x name, m at level 100, k at level 200).

(** *** Characters *)

Definition code (c : ascii) : N := N_of_ascii c.

Definition in_range (lo hi : N) (c : ascii) : bool :=
  ((lo <=? code c) && (code c <=? hi))%N.

Definition is_digit (c : ascii) : bool := in_range 48 57 c.

(** [\w] of [re] on [str] patterns: alphanumeric code points and the
    underscore (restricted here to code points below 256). *)
Definition is_word (c : ascii) : bool :=
  is_digit c || in_range 65 90 c || (code c =? 95)%N || in_range 97 122 c
  || (code c =? 170)%N || in_range 178 179 c || (code c =? 181)%N
  || in_range 185 186 c || in_range 188 190 c || in_range 192 214 c
  || in_range 216 246 c || in_range 248 255 c.

(** [str.lower] on one character. *)
Definition lower_char (c : ascii) : ascii :=
  if in_range 65 90 c || in_range 192 214 c || in_range 216 222 c
  then ascii_of_N (code c + 32)
  else c.

Fixpoint lower (s : string) : string :=
  match s with
  | "" => ""
  | String c rest => String (lower_char c) (lower rest)
  end.

(** *** Strings *)

Fixpoint take_while (p : ascii -> bool) (s : string) : string :=
  match s with
  | "" => ""
  | String c rest => if p c then String c (take_while p rest) else ""
  end.

Fixpoint drop_while (p : ascii -> bool) (s : string) : string :=
  match s with
  | "" => ""
  | String c rest => if p c then drop_while p rest else s
  end.

Fixpoint forallb_str (p : ascii -> bool) (s : string) : bool :=
  match s with
  | "" => true
  | String c rest => p c && forallb_str p rest
  end.

(** [sub in s] for two strings. *)
Fixpoint contains (sub s : string) : bool :=
  prefix sub s ||
  match s with
  | "" => false
  | String _ rest => contains sub rest
  end.

(** [s.split(sep)] for a non-empty [sep]: a scan from the left that cuts at
    every occurrence of [sep] and resumes after it.  [skip] counts the
    characters of the occurrence still to pass, [cur] is the piece being
    collected. *)
Fixpoint split_from (sep s : string) (skip : nat) (cur : string) : list string :=
  match s with
  | "" => [cur]
  | String c rest =>
      match skip with
      | S k => split_from sep rest k cur
      | O =>
          if prefix sep s
          then cur :: split_from sep rest (String.length sep - 1) ""
          else split_from sep rest 0 (cur ++ String c "")
      end
  end.

Definition split (sep s : string) : list string := split_from sep s 0 "".

(** *** Decoded JSON

    What [json.loads] builds from documents without fractional numbers.  An
    object keeps its items as an association list; a key is looked up from the
    front. *)
Inductive json : Type :=
| JNull
| JBool (b : bool)
| JInt (z : Z)
| JStr (s : string)
| JArr (items : list json)
| JObj (fields : list (string * json)).

Fixpoint assoc (k : string) (m : list (string * json)) : option json :=
  match m with
  | [] => None
  | (k', v) :: rest => if String.eqb k k' then Some v else assoc k rest
  end.

(** [bool(v)], the test behind [if v] and [not v]. *)
Definition truthy (v : json) : bool :=
  match v with
  | JNull => false
  | JBool b => b
  | JInt z => negb (z =? 0)%Z
  | JStr s => negb (String.eqb s "")
  | JArr l => match l with [] => false | _ => true end
  | JObj m => match m with [] => false | _ => true end
  end.

(** [v.get(k)]: only a dict has the method. *)
Definition dict_get (v : json) (k : string) : exc json :=
  match v with
  | JObj m => Ok (match assoc k m with Some x => x | None => JNull end)
  | _ => Raise AttributeError
  end.

Definition Z_of_bool (b : bool) : Z := if b then 1%Z else 0%Z.

(** [a == b]. *)
Fixpoint py_eq (a b : json) {struct a} : bool :=
  match a, b with
  | JNull, JNull => true
  | JBool x, JBool y => Bool.eqb x y
  | JBool x, JInt y => (Z_of_bool x =? y)%Z
  | JInt x, JBool y => (x =? Z_of_bool y)%Z
  | JInt x, JInt y => (x =? y)%Z
  | JStr x, JStr y => String.eqb x y
  | JArr x, JArr y =>
      (fix items (x y : list json) {struct x} : bool :=
         match x, y with
         | [], [] => true
         | u :: x', v :: y' => py_eq u v && items x' y'
         | _, _ => false
         end) x y
  | JObj x, JObj y =>
      (List.length x =? List.length y)%nat &&
      (fix fields (x : list (string * json)) {struct x} : bool :=
         match x with
         | [] => true
         | (k, u) :: x' =>
             match assoc k y with
             | Some v => py_eq u v && fields x'
             | None => false
             end
         end) x
  | _, _ => false
  end.

(** [k in v] for a string [k]. *)
Definition py_in (k : string) (v : json) : exc bool :=
  match v with
  | JObj m => Ok (match assoc k m with Some _ => true | None => false end)
  | JArr l => Ok (existsb (py_eq (JStr k)) l)
  | JStr s => Ok (contains k s)
  | _ => Raise TypeError
  end.

(** [v[k]] for a string [k]. *)
Definition py_getitem (v : json) (k : string) : exc json :=
  match v with
  | JObj m => match assoc k m with Some x => Ok x | None => Raise KeyError end
  | _ => Raise TypeError
  end.

(** *** [int(v)]

    On a string: surrounding white space is dropped, then an optional sign
    and decimal digits are read.  The cap that recent interpreters put on the
    number of digits is not modelled. *)

(** The characters [int] treats as white space. *)
Definition is_space (c : ascii) : bool :=
  in_range 9 13 c || (code c =? 32)%N || (code c =? 133)%N || (code c =? 160)%N.

Fixpoint rstrip (p : ascii -> bool) (s : string) : string :=
  match s with
  | "" => ""
  | String c rest =>
      match rstrip p rest with
      | "" => if p c then "" else String c ""
      | r => String c r
      end
  end.

Definition strip (s : string) : string := rstrip is_space (drop_while is_space s).

Definition digit_value (c : ascii) : Z := Z.of_N (code c - 48).

(** Decimal digits, single underscores allowed between two digits. *)
Fixpoint digits_value (s : string) (acc : Z) (after_digit : bool) : option Z :=
  match s with
  | "" => if after_digit then Some acc else None
  | String c rest =>
      if is_digit c then digits_value rest (acc * 10 + digit_value c)%Z true
      else if (code c =? 95)%N && after_digit then digits_value rest acc false
      else None
  end.

Definition int_of_str (s : string) : exc Z :=
  let body (t : string) (sign : Z) :=
    match digits_value t 0%Z false with
    | Some z => Ok (sign * z)%Z
    | None => Raise ValueError
    end in
  match strip s with
  | String "+" t => body t 1%Z
  | String "-" t => body t (-1)%Z
  | t => body t 1%Z
  end.

Definition py_int (v : json) : exc Z :=
  match v with
  | JBool b => Ok (Z_of_bool b)
  | JInt z => Ok z
  | JStr s => int_of_str s
  | JNull | JArr _ | JObj _ => Raise TypeError
  end.

(** *** [str(v)] and [repr(v)]

    [repr] of a string picks the quote, escapes it and the backslash, writes
    tab, newline and return as two-character escapes, and every other
    unprintable character as [\xhh]. *)

Definition str_of_Z (z : Z) : string := NilZero.string_of_int (Z.to_int z).

Definition hex_digit (n : N) : ascii :=
  if (n <? 10)%N then ascii_of_N (48 + n) else ascii_of_N (87 + n).

Definition printable (c : ascii) : bool :=
  negb (in_range 0 31 c || in_range 127 160 c || (code c =? 173)%N).

Definition repr_char (quote c : ascii) : string :=
  if Ascii.eqb c quote || (code c =? 92)%N then String "\" (String c "")
  else if (code c =? 9)%N then "\t"
  else if (code c =? 10)%N then "\n"
  else if (code c =? 13)%N then "\r"
  else if printable c then String c ""
  else String "\" (String "x"
         (String (hex_digit (code c / 16)) (String (hex_digit (code c mod 16)) ""))).

Fixpoint repr_chars (quote : ascii) (s : string) : string :=
  match s with
  | "" => ""
  | String c rest => repr_char quote c ++ repr_chars quote rest
  end.

Definition squote : ascii := ascii_of_N 39.
Definition dquote : ascii := ascii_of_N 34.

Definition repr_str (s : string) : string :=
  let quote :=
    if contains (String squote "") s && negb (contains (String dquote "") s)
    then dquote else squote in
  String quote (repr_chars quote s ++ String quote "").

Fixpoint py_repr (v : json) : string :=
  match v with
  | JNull => "None"
  | JBool true => "True"
  | JBool false => "False"
  | JInt z => str_of_Z z
  | JStr s => repr_str s
  | JArr l =>
      "[" ++ (fix items (l : list json) : string :=
                match l with
                | [] => ""
                | [x] => py_repr x
                | x :: rest => py_repr x ++ ", " ++ items rest
                end) l ++ "]"
  | JObj m =>
      "{" ++ (fix fields (m : list (string * json)) : string :=
                match m with
                | [] => ""
                | [(k, x)] => repr_str k ++ ": " ++ py_repr x
                | (k, x) :: rest => repr_str k ++ ": " ++ py_repr x ++ ", " ++ fields rest
                end) m ++ "}"
  end.

Definition py_str (v : json) : string :=
  match v with
  | JStr s => s
  | _ => py_repr v
  end.

(** *** [int(n / d)] on integers

    [n / d] is true division: the binary64 number nearest to the exact
    quotient (ties to the even mantissa), [OverflowError] when that is out of
    range; [int] then truncates toward zero. *)

Definition round_half_even (a b : Z) : Z :=
  let q := (a / b)%Z in
  match (2 * (a mod b) ?= b)%Z with
  | Lt => q
  | Gt => (q + 1)%Z
  | Eq => if Z.even q then q else (q + 1)%Z
  end.

(** Mantissa and exponent [(m, e)] of the double [m * 2^e] nearest to [n / d],
    for positive [n] and [d]: a 53-bit mantissa, or the exponent [-1074] of
    the subnormal numbers. *)
Definition nearest_double (n d : Z) : Z * Z :=
  let s := (Z.log2 n - Z.log2 d)%Z in
  let e0 :=
    if (d * 2 ^ Z.max s 0 <=? n * 2 ^ Z.max (- s) 0)%Z then (s - 52)%Z else (s - 53)%Z in
  let e := Z.max e0 (-1074) in
  let m :=
    if (0 <=? e)%Z then round_half_even n (d * 2 ^ e)
    else round_half_even (n * 2 ^ (- e)) d in
  (m, e).

Definition int_truediv (n d : Z) : exc Z :=
  if (d =? 0)%Z then Raise ZeroDivisionError
  else if (n =? 0)%Z then Ok 0%Z
  else
    let '(m, e) := nearest_double (Z.abs n) (Z.abs d) in
    if (0 <=? e)%Z then
      if (2 ^ 1024 <=? m * 2 ^ e)%Z then Raise OverflowError
      else Ok (Z.sgn n * Z.sgn d * (m * 2 ^ e))%Z
    else Ok (Z.sgn n * Z.sgn d * (m / 2 ^ (- e)))%Z.

End Py.

Import Py.

(** ** Identifier resolution *)

Local Open Scope string_scope.

(** The character class [[\w-]]. *)
Definition id_char (c : ascii) : bool := is_word c || (code c =? 45)%N.

(** An attempt to match [/d/([\w-]+)] at the start of [s]: the group is the
    longest run of class characters after the three literal ones. *)
Definition match_d_here (s : string) : option string :=
  match s with
  | String "/" (String "d" (String "/" rest)) =>
      match take_while id_char rest with
      | "" => None
      | tok => Some tok
      end
  | _ => None
  end.

(** [re.search(r"/d/([\w-]+)", url)]: the match at the leftmost position that
    has one; the result is [match.group(1)]. *)
Fixpoint search_d (url : string) : option string :=
  match match_d_here url with
  | Some tok => Some tok
  | None =>
      match url with
      | "" => None
      | String _ rest => search_d rest
      end
  end.

Definition open_id_marker : string := "open?id=".

Definition convert_drive_link_to_file_id (url : string) : string :=
  match search_d url with
  | Some tok => tok
  | None =>
      if contains open_id_marker url
      then last (split open_id_marker url) ""
      else url
  end.

(** What the rules of resolution mean, stated on the reference itself.
    [d_match_at url pre tok post]: after [pre] the reference reads [/d/], then
    the non-empty run [tok] of class characters, which [post] does not extend.
    [d_candidate url pre]: a match of the pattern starts right after [pre]. *)
Definition d_match_at (url pre tok post : string) : Prop :=
  url = pre ++ "/d/" ++ tok ++ post /\
  tok <> "" /\
  forallb_str id_char tok = true /\
  match post with "" => True | String c _ => id_char c = false end.

Definition d_candidate (url pre : string) : Prop :=
  exists c rest, url = pre ++ "/d/" ++ String c rest /\ id_char c = true.

Definition first_d_match (url pre tok post : string) : Prop :=
  d_match_at url pre tok post /\
  forall pre', d_candidate url pre' -> (String.length pre <= String.length pre')%nat.

Definition no_d_match (url : string) : Prop := forall pre, ~ d_candidate url pre.

(** ** The world of one operation *)

Local Open Scope Z_scope.

(** One [log.insert(tk.END, ...)]: the message of the source line with the
    values its f-string interpolates. *)
Inductive event : Type :=
| EvInvalidContent                                  (* Received invalid content type. *)
| EvProgress (progress : Z)                         (* Download progress: {progress}% *)
| EvDownloadComplete                                (* Download complete. *)
| EvDownloadFailed (e : exn)                        (* Download failed: {e} *)
| EvUploading (file_size : Z)                       (* Uploading {file_size / (1024*1024):.2f}MB video to Facebook... *)
| EvSessionFailed (start_res : json)                (* Upload session failed: {start_res} *)
| EvTransferError (error : json)                    (* Transfer error: {transfer_res['error']} *)
| EvChunkUploaded (start_offset end_offset : json)  (* Chunk uploaded. Next: {start_offset} to {end_offset} *)
| EvUploaded (fb_link : string)                     (* Uploaded: {fb_link} *)
| EvUploadFailed (e : exn)                          (* Facebook upload failed: {e} *)
| EvTokenValid                                      (* Token is valid for this page. *)
| EvTokenInvalid (res : json).                      (* Invalid token or page ID: {res} *)

(** The HTTP requests of the three operations, with the parameters the source
    passes. *)
Inductive request : Type :=
| GetDownload (file_id : string)
| GetConfirm (file_id confirm uuid : string)
| GetPage (page_id token : string)
| PostStart (page_id access_token : string) (file_size : Z)
| PostTransfer (page_id : string) (session_id start_offset : json)
               (access_token : string) (chunk : list byte)
| PostFinish (page_id : string) (session_id : json) (access_token : string).

Record world : Type := {
  files : string -> option (list byte);
  log : list event;
  sent : list request
}.

Definition emit (ev : event) (w : world) : world :=
  {| files := files w; log := log w ++ [ev]; sent := sent w |}.

Definition send (r : request) (w : world) : world :=
  {| files := files w; log := log w; sent := sent w ++ [r] |}.

Definition store (path : string) (data : list byte) (w : world) : world :=
  {| files := fun p => if String.eqb p path then Some data else files w p;
     log := log w; sent := sent w |}.

(** How a call ends: with a value, with an exception that leaves the
    function, or not at all (a request that is never answered). *)
Inductive outcome (A : Type) : Type :=
| Returned (a : A)
| Raised (e : exn)
| Blocked.
Arguments Returned {A} a.
Arguments Raised {A} e.
Arguments Blocked {A}.

(** ** The Uploader *)

(** Replies of the Graph API, in the order of the requests: the decoded body
    of a response, or the exception [requests.post(...).json()] raises. *)
Definition api_script : Type := list (exc json).

(** [f.seek(pos)] on a file opened for reading: a negative offset is refused
    by the system, one beyond 63 bits by the interpreter; seeking past the
    end of the file is allowed. *)
Definition file_seek (pos : Z) : exc Z :=
  if pos <? 0 then Raise OSError
  else if 2 ^ 63 <=? pos then Raise ValueError
  else Ok pos.

(** [f.read(n)] at position [pos] of a file holding [data]: [-1] reads to the
    end, a smaller size is refused.  Allocation of the buffer is assumed to
    succeed for sizes that fit the index type. *)
Definition file_read (data : list byte) (pos n : Z) : exc (list byte) :=
  if n <? -1 then Raise ValueError
  else if 2 ^ 63 - 1 <=? n then Raise OverflowError
  else if n =? -1 then Ok (skipn (Z.to_nat pos) data)
  else Ok (firstn (Z.to_nat n) (skipn (Z.to_nat pos) data)).

(** [f.seek(int(start_offset)); chunk = f.read(int(end_offset) - int(start_offset))] *)
Definition read_chunk (data : list byte) (start_offset end_offset : json)
  : exc (list byte) :=
  let* s := py_int start_offset in
  let* pos := file_seek s in
  let* e := py_int end_offset in
  let* s' := py_int start_offset in
  file_read data pos (e - s').

(** How the [while True] loop is left: by [break], or by the [return] of the
    error branch. *)
Inductive loop_exit : Type := ByBreak | ByReturn.

Definition is_empty {A : Type} (l : list A) : bool :=
  match l with [] => true | _ => false end.

(** The transfer loop.  Every iteration that goes on consumes one reply, so
    the loop is defined by recursion on the script. *)
Fixpoint transfer_loop (data : list byte) (page_id access_token : string)
    (session_id start_offset end_offset : json)
    (server : api_script) (w : world) {struct server}
  : outcome loop_exit * world * api_script :=
  match read_chunk data start_offset end_offset with
  | Raise e => (Raised e, w, server)
  | Ok chunk =>
      if is_empty chunk then (Returned ByBreak, w, server)
      else
        let w1 :=
          send (PostTransfer page_id session_id start_offset access_token chunk) w in
        match server with
        | [] => (Blocked, w1, [])
        | Raise e :: server' => (Raised e, w1, server')
        | Ok transfer_res :: server' =>
            match py_in "error" transfer_res with
            | Raise e => (Raised e, w1, server')
            | Ok true =>
                match py_getitem transfer_res "error" with
                | Raise e => (Raised e, w1, server')
                | Ok err => (Returned ByReturn, emit (EvTransferError err) w1, server')
                end
            | Ok false =>
                match dict_get transfer_res "start_offset" with
                | Raise e => (Raised e, w1, server')
                | Ok start_offset' =>
                    match dict_get transfer_res "end_offset" with
                    | Raise e => (Raised e, w1, server')
                    | Ok end_offset' =>
                        let w2 := emit (EvChunkUploaded start_offset' end_offset') w1 in
                        if py_eq start_offset' end_offset'
                        then (Returned ByBreak, w2, server')
                        else transfer_loop data page_id access_token session_id
                               start_offset' end_offset' server' w2
                    end
                end
            end
        end
  end.

Definition video_url : string := "https://www.facebook.com/video.php?v=".

(** The finish phase, after the loop is left by [break]. *)
Definition finish_upload (page_id access_token : string) (session_id video_id : json)
    (server : api_script) (w : world) : outcome unit * world * api_script :=
  let w1 := send (PostFinish page_id session_id access_token) w in
  match server with
  | [] => (Blocked, w1, [])
  | Raise e :: server' => (Raised e, w1, server')
  | Ok finish_res :: server' =>
      let fb_link := (video_url ++ py_str video_id)%string in
      (Returned tt, emit (EvUploaded fb_link) w1, server')
  end.

(** The body of the [try] block of [upload_to_facebook]. *)
Definition upload_body (filepath page_id access_token : string)
    (server : api_script) (w : world) : outcome unit * world * api_script :=
  match files w filepath with
  | None => (Raised OSError, w, server)            (* os.path.getsize *)
  | Some data =>
      let file_size := Z.of_nat (List.length data) in
      let w1 := emit (EvUploading file_size) w in
      let w2 := send (PostStart page_id access_token file_size) w1 in
      match server with
      | [] => (Blocked, w2, [])
      | Raise e :: server' => (Raised e, w2, server')
      | Ok start_res :: server' =>
          match
            (let* session_id := dict_get start_res "upload_session_id" in
             let* video_id := dict_get start_res "video_id" in
             let* start_offset := dict_get start_res "start_offset" in
             let* end_offset := dict_get start_res "end_offset" in
             Ok (session_id, video_id, start_offset, end_offset))
          with
          | Raise e => (Raised e, w2, server')
          | Ok (session_id, video_id, start_offset, end_offset) =>
              if negb (truthy session_id)
              then (Returned tt, emit (EvSessionFailed start_res) w2, server')
              else
                match transfer_loop data page_id access_token session_id
                        start_offset end_offset server' w2 with
                | (Returned ByBreak, w3, server'') =>
                    finish_upload page_id access_token session_id video_id server'' w3
                | (Returned ByReturn, w3, server'') => (Returned tt, w3, server'')
                | (Raised e, w3, server'') => (Raised e, w3, server'')
                | (Blocked, w3, server'') => (Blocked, w3, server'')
                end
          end
      end
  end.

(** [upload_to_facebook]: the body under [try], and the [except Exception]
    handler that turns an exception into one event. *)
Definition upload_to_facebook (filepath page_id access_token : string)
    (server : api_script) (w : world) : outcome unit * world * api_script :=
  match upload_body filepath page_id access_token server w with
  | (Raised e, w', server') => (Returned tt, emit (EvUploadFailed e) w', server')
  | r => r
  end.

(** ** The Credential Checker *)

Definition test_token (token page_id : string) (server : api_script) (w : world)
  : outcome unit * world * api_script :=
  let w1 := send (GetPage page_id token) w in
  match server with
  | [] => (Blocked, w1, [])
  | Raise e :: server' => (Raised e, w1, server')
  | Ok res :: server' =>
      match py_in "id" res with
      | Raise e => (Raised e, w1, server')
      | Ok true => (Returned tt, emit EvTokenValid w1, server')
      | Ok false => (Returned tt, emit (EvTokenInvalid res) w1, server')
      end
  end.

(** ** The Fetcher *)

Definition TEMP_FILENAME : string := "temp_video.mp4".
Definition ERROR_HTML_FILE : string := "error.html".

(** What [BeautifulSoup] finds in a page: for each of the two [input]
    elements of the form with id [download-form], whether it is there
    ([Some]) and the [value] attribute it carries, if any. *)
Record download_form : Type := {
  confirm_input : option (option string);
  uuid_input : option (option string)
}.

(** A response of the download servers.  [body] lists the pieces in which the
    transport delivers the body to [iter_content]; [fault] is the exception
    that ends the transfer after these pieces, if the transfer fails.  [text]
    is [response.text] once the whole body has arrived, and [form] the form
    that the HTML parser finds in it. *)
Record response : Type := {
  headers : list (string * string);
  text : string;
  form : option download_form;
  body : list (list byte);
  fault : option exn
}.

Definition download_script : Type := list (exc response).

(** [headers.get(name)] on the case-insensitive dict of [requests]. *)
Fixpoint header_get (name : string) (hs : list (string * string)) : option string :=
  match hs with
  | [] => None
  | (k, v) :: rest =>
      if String.eqb (lower k) (lower name) then Some v else header_get name rest
  end.

(** [resp.text] on a streamed response: the body is read to its end first. *)
Definition read_text (resp : response) : exc string :=
  match fault resp with
  | Some e => Raise e
  | None => Ok (text resp)
  end.

Definition truthy_str (v : option string) : bool :=
  match v with
  | Some s => negb (String.eqb s "")
  | None => false
  end.

Definition get_confirm_info_from_form (resp : response)
  : exc (option string * option string) :=
  let* _ := read_text resp in
  match form resp with
  | None => Ok (None, None)
  | Some f =>
      match confirm_input f, uuid_input f with
      | Some confirm, Some uuid => Ok (confirm, uuid)
      | _, _ => Ok (None, None)
      end
  end.

(** [iter_slices(content, n)]: the slices of a body already in memory. *)
Fixpoint iter_slices_upto (fuel n : nat) (data : list byte) : list (list byte) :=
  match fuel with
  | O => []
  | S fuel' =>
      match data with
      | [] => []
      | _ => firstn n data :: iter_slices_upto fuel' n (skipn n data)
      end
  end.

Definition iter_slices (n : nat) (data : list byte) : list (list byte) :=
  iter_slices_upto (List.length data) n data.

(** [response.iter_content(32768)]: the slices of the content when [.text]
    has read the body before ([consumed]), the pieces of the transfer and its
    fault otherwise. *)
Definition iter_content (resp : response) (consumed : bool)
  : list (list byte) * option exn :=
  if consumed
  then (iter_slices (Z.to_nat 32768) (List.concat (body resp)), None)
  else (body resp, fault resp).

(** The UTF-8 encoding of a text of code points below 256, as [open(path,
    "w", encoding="utf-8")] writes it (newlines kept as they are). *)
Definition utf8_char (c : ascii) : list byte :=
  if (code c <? 128)%N then [byte_of_ascii c]
  else [byte_of_ascii (ascii_of_N (192 + code c / 64));
        byte_of_ascii (ascii_of_N (128 + code c mod 64))].

Fixpoint utf8_encode (s : string) : list byte :=
  match s with
  | EmptyString => []
  | String c rest => utf8_char c ++ utf8_encode rest
  end.

(** [f.write(chunk)] on the file opened at [path]. *)
Definition append_file (path : string) (chunk : list byte) (w : world) : world :=
  store path (match files w path with Some old => old | None => [] end ++ chunk) w.

(** [min(100, int(downloaded * 100 / content_length))] *)
Definition progress_percent (content_length downloaded : Z) : exc Z :=
  let* q := int_truediv (downloaded * 100) content_length in
  Ok (Z.min 100 q).

(** The [for chunk in response.iter_content(32768)] loop over the chunks that
    arrive, from a count of [downloaded] bytes. *)
Fixpoint write_chunks (dest_filename : string) (content_length : Z)
    (chunks : list (list byte)) (downloaded : Z) (w : world) : exc unit * world :=
  match chunks with
  | [] => (Ok tt, w)
  | chunk :: rest =>
      if is_empty chunk
      then write_chunks dest_filename content_length rest downloaded w
      else
        let w1 := append_file dest_filename chunk w in
        let downloaded' := downloaded + Z.of_nat (List.length chunk) in
        if content_length =? 0
        then write_chunks dest_filename content_length rest downloaded' w1
        else
          match progress_percent content_length downloaded' with
          | Raise e => (Raise e, w1)
          | Ok progress =>
              write_chunks dest_filename content_length rest downloaded'
                (emit (EvProgress progress) w1)
          end
  end.

(** Lines 32 to 56: the first request, and the second one when the first
    response carries the confirmation form.  The result is the response the
    rest of the function works on, and whether its body was read already. *)
Definition final_response (file_id : string) (server : download_script) (w : world)
  : outcome (response * bool) * world * download_script :=
  let w1 := send (GetDownload file_id) w in
  match server with
  | [] => (Blocked, w1, [])
  | Raise e :: server' => (Raised e, w1, server')
  | Ok response :: server' =>
      match get_confirm_info_from_form response with
      | Raise e => (Raised e, w1, server')
      | Ok (token, uuid_val) =>
          if truthy_str token && truthy_str uuid_val
          then
            let w2 :=
              send (GetConfirm file_id
                      (match token with Some t => t | None => "" end)
                      (match uuid_val with Some u => u | None => "" end)) w1 in
            match server' with
            | [] => (Blocked, w2, [])
            | Raise e :: server'' => (Raised e, w2, server'')
            | Ok response' :: server'' => (Returned (response', false), w2, server'')
            end
          else (Returned (response, true), w1, server')
      end
  end.

(** [response.headers.get("content-type", "")] *)
Definition header_content_type (resp : response) : string :=
  match header_get "content-type" (headers resp) with
  | Some v => v
  | None => ""%string
  end.

(** [int(response.headers.get("content-length", 0))] *)
Definition header_content_length (resp : response) : exc Z :=
  match header_get "content-length" (headers resp) with
  | Some v => int_of_str v
  | None => Ok 0
  end.

(** The test of line 61. *)
Definition invalid_content (content_type : string) (content_length : Z) : bool :=
  contains "html" (lower content_type) || (content_length <? 1000000).

(** Lines 58 to 83: classification of the response, then the diagnostic file
    or the streamed copy. *)
Definition save_response (resp : response) (consumed : bool)
    (dest_filename : string) (w : world) : outcome bool * world :=
  let content_type := header_content_type resp in
  match header_content_length resp with
  | Raise e => (Raised e, w)
  | Ok content_length =>
      if invalid_content content_type content_length
      then
        let w1 := emit EvInvalidContent w in
        let w2 := store ERROR_HTML_FILE [] w1 in
        match (if consumed then Ok (text resp) else read_text resp) with
        | Raise e => (Raised e, w2)
        | Ok t => (Returned false, store ERROR_HTML_FILE (utf8_encode t) w2)
        end
      else
        let w1 := store dest_filename [] w in
        let '(chunks, broken) := iter_content resp consumed in
        match write_chunks dest_filename content_length chunks 0 w1 with
        | (Raise e, w2) => (Returned false, emit (EvDownloadFailed e) w2)
        | (Ok _, w2) =>
            match broken with
            | Some e => (Returned false, emit (EvDownloadFailed e) w2)
            | None => (Returned true, emit EvDownloadComplete w2)
            end
        end
  end.

Definition download_video_file (file_id dest_filename : string)
    (server : download_script) (w : world) : outcome bool * world * download_script :=
  match final_response file_id server w with
  | (Returned (resp, consumed), w1, server') =>
      let '(r, w2) := save_response resp consumed dest_filename w1 in (r, w2, server')
  | (Raised e, w1, server') => (Raised e, w1, server')
  | (Blocked, w1, server') => (Blocked, w1, server')
  end.

(** ** Runs of the Uploader

    The vocabulary in which the properties of the Uploader are stated: the
    byte-range cursor a response dictates, and the runs of transfer responses
    that keep the loop going. *)

(** [res.get(k)] on the fields of a JSON object. *)
Definition field (k : string) (fields : list (string * json)) : json :=
  match assoc k fields with
  | Some v => v
  | None => JNull
  end.

Definition cursor : Type := (json * json)%type.

Definition cursor_of (fields : list (string * json)) : cursor :=
  (field "start_offset" fields, field "end_offset" fields).

(** The cursor selects a non-empty chunk of the file. *)
Definition readable (data : list byte) (c : cursor) : Prop :=
  exists chunk, read_chunk data (fst c) (snd c) = Ok chunk /\ chunk <> [].

Definition chunk_at (data : list byte) (c : cursor) : list byte :=
  match read_chunk data (fst c) (snd c) with
  | Ok chunk => chunk
  | Raise _ => []
  end.

(** The transfer request made at cursor [c]. *)
Definition post_at (data : list byte) (page_id access_token : string)
    (session_id : json) (c : cursor) : request :=
  PostTransfer page_id session_id (fst c) access_token (chunk_at data c).

(** [going data c rs]: from cursor [c], each response of [rs] in turn answers
    a transfer of a non-empty chunk, has no error field, and dictates a
    cursor whose two ends differ. *)
Fixpoint going (data : list byte) (c : cursor) (rs : list (list (string * json)))
  : Prop :=
  match rs with
  | [] => True
  | r :: rs' =>
      readable data c /\
      assoc "error" r = None /\
      py_eq (fst (cursor_of r)) (snd (cursor_of r)) = false /\
      going data (cursor_of r) rs'
  end.

(** The cursor in force after the responses [rs]. *)
Definition end_cursor (c : cursor) (rs : list (list (string * json))) : cursor :=
  last (map cursor_of rs) c.

Definition chunk_event (r : list (string * json)) : event :=
  EvChunkUploaded (fst (cursor_of r)) (snd (cursor_of r)).

(** The world after the transfers answered by [rs], made from cursor [c]: one
    request per response, at the cursor in force when it was made. *)
Definition after_transfers (data : list byte) (page_id access_token : string)
    (session_id : json) (c : cursor) (rs : list (list (string * json)))
    (w : world) : world :=
  {| files := files w;
     log := (log w ++ map chunk_event rs)%list;
     sent := (sent w ++ map (post_at data page_id access_token session_id)
                          (removelast (c :: map cursor_of rs)))%list |}.

Definition ok_object (r : list (string * json)) : exc json := Ok (JObj r).

Definition is_finish (r : request) : bool :=
  match r with PostFinish _ _ _ => true | _ => false end.

Definition is_transfer (r : request) : bool :=
  match r with PostTransfer _ _ _ _ _ => true | _ => false end.

(** ** Runs of the Fetcher

    The vocabulary in which the properties of the streamed copy are stated. *)

(** The values of [downloaded] after each non-empty chunk, from a count of
    [downloaded] bytes. *)
Fixpoint running_totals (downloaded : Z) (chunks : list (list byte)) : list Z :=
  match chunks with
  | [] => []
  | chunk :: rest =>
      if is_empty chunk then running_totals downloaded rest
      else
        let downloaded' := downloaded + Z.of_nat (List.length chunk) in
        downloaded' :: running_totals downloaded' rest
  end.

(** The percentage as the specification words it:
    [min(100, floor(bytes_downloaded * 100 / content_length))]. *)
Definition spec_percentage (content_length bytes_downloaded : Z) : Z :=
  Z.min 100 (bytes_downloaded * 100 / content_length).

(** A sequence that never decreases. *)
Fixpoint non_decreasing (l : list Z) : Prop :=
  match l with
  | [] => True
  | x :: rest =>
      match rest with
      | [] => True
      | y :: _ => x <= y /\ non_decreasing rest
      end
  end.

(** The number of bytes of the body. *)
Definition body_size (resp : response) : Z :=
  Z.of_nat (List.length (List.concat (body resp))).

(** The final event of a streamed copy: completion, or the failure caught. *)
Definition closes_copy (ev : event) : Prop :=
  ev = EvDownloadComplete \/ exists e, ev = EvDownloadFailed e.

(** ** Sample runs

    A five-byte artifact, the responses of a two-chunk upload, and three
    download responses; the properties below are instantiated on them. *)

Definition sample_video : list byte := [x00; x01; x02; x03; x04].

Definition sample_world : world :=
  {| files := fun p => if String.eqb p TEMP_FILENAME then Some sample_video else None;
     log := [];
     sent := [] |}.

Definition sample_start : list (string * json) :=
  [("upload_session_id", JStr "s1"); ("video_id", JStr "987");
   ("start_offset", JStr "0"); ("end_offset", JStr "3")].

Definition sample_next : list (string * json) :=
  [("start_offset", JStr "3"); ("end_offset", JStr "5")].

Definition sample_done : list (string * json) :=
  [("start_offset", JStr "5"); ("end_offset", JStr "5")].

Definition sample_error : list (string * json) :=
  [("error", JObj [("message", JStr "quota"); ("code", JInt 6000)])].

Definition sample_bare : list (string * json) := [("success", JBool true)].

Definition sample_finish : json := JObj [("success", JBool true)].

Definition sample_media : response :=
  {| headers := [("Content-Type", "video/mp4"); ("Content-Length", "1000000")];
     text := "";
     form := None;
     body := [[x00; x01]; [x02]];
     fault := None |}.

Definition sample_small : response :=
  {| headers := [("Content-Type", "application/octet-stream"); ("Content-Length", "512")];
     text := "quota";
     form := None;
     body := [[x00]];
     fault := None |}.

Definition sample_garbled : response :=
  {| headers := [("Content-Type", "video/mp4"); ("Content-Length", "12abc")];
     text := "";
     form := None;
     body := [[x00]];
     fault := None |}.

Definition sample_page : response :=
  {| headers := [("Content-Type", "text/html; charset=utf-8")];
     text := "<html>sign in</html>";
     form := None;
     body := [[x00]];
     fault := None |}.

(** ** Shapes of runs

    What an operation adds to the world, and the requests and events the
    transfer loop can produce. *)

(** The world [w] with the events [evs] logged and the requests [reqs] sent
    after what it held; the files are those of [w]. *)
Definition extend (w : world) (evs : list event) (reqs : list request) : world :=
  {| files := files w; log := (log w ++ evs)%list; sent := (sent w ++ reqs)%list |}.

(** [chunk] is a run of consecutive bytes of [data]. *)
Definition is_slice (data chunk : list byte) : Prop :=
  exists pos n, chunk = firstn n (skipn pos data).

(** A transfer request of the session, carrying a non-empty slice of the
    file. *)
Definition transfer_for (data : list byte) (page_id access_token : string)
    (session_id : json) (r : request) : Prop :=
  exists start_offset chunk,
    r = PostTransfer page_id session_id start_offset access_token chunk /\
    chunk <> [] /\ is_slice data chunk.

(** An event of the transfer loop. *)
Definition loop_event (ev : event) : Prop :=
  (exists s e, ev = EvChunkUploaded s e) \/ (exists err, ev = EvTransferError err).

(** The requests of one run of the Uploader on the input [file]: none when
    the file is missing; otherwise the Start request with the size of the
    file, the transfers, and possibly the Finish request, in this order. *)
Definition upload_requests (file : option (list byte)) (page_id access_token : string)
    (reqs : list request) : Prop :=
  match file with
  | None => reqs = []
  | Some data =>
      let start := PostStart page_id access_token (Z.of_nat (List.length data)) in
      exists session_id transfers,
        Forall (transfer_for data page_id access_token session_id) transfers /\
        (reqs = start :: transfers \/
         reqs = (start :: transfers
                   ++ [PostFinish page_id session_id access_token])%list)
  end.

Definition is_blocked {A : Type} (o : outcome A) : bool :=
  match o with Blocked => true | _ => false end.

Definition is_uploaded (ev : event) : bool :=
  match ev with EvUploaded _ => true | _ => false end.

Definition is_object (v : json) : bool :=
  match v with JObj _ => true | _ => false end.

(** An input file without bytes, for the runs on an empty artifact. *)
Definition empty_world : world :=
  {| files := fun p => if String.eqb p TEMP_FILENAME then Some [] else None;
     log := [];
     sent := [] |}.

(** A download that breaks after its first chunk: the page with the
    confirmation form, then the media whose transfer fails. *)
Definition sample_form_page : response :=
  {| headers := [("Content-Type", "text/html")];
     text := "<form id=download-form>";
     form := Some {| confirm_input := Some (Some "t"); uuid_input := Some (Some "u") |};
     body := [];
     fault := None |}.

Definition sample_broken : response :=
  {| headers := [("Content-Type", "video/mp4"); ("Content-Length", "1000000")];
     text := "";
     form := None;
     body := [[x00; x01]];
     fault := Some RequestException |}.

(** ** The caller of the two pipelines *)

(** [threaded_process] of [run_gui], with the three entries of the window as
    arguments: resolution, then the Fetcher on the fixed artifact path, then
    the Uploader if the Fetcher returned [True].  The function has no [try]:
    what the Fetcher raises leaves it. *)
Definition threaded_process (url page_id token : string)
    (drive : download_script) (graph : api_script) (w : world)
  : outcome unit * world * download_script * api_script :=
  let file_id := convert_drive_link_to_file_id url in
  match download_video_file file_id TEMP_FILENAME drive w with
  | (Returned success, w1, drive') =>
      if success
      then
        let '(out, w2, graph') :=
          upload_to_facebook TEMP_FILENAME page_id token graph w1 in
        (out, w2, drive', graph')
      else (Returned tt, w1, drive', graph)
  | (Raised e, w1, drive') => (Raised e, w1, drive', graph)
  | (Blocked, w1, drive') => (Blocked, w1, drive', graph)
  end.

Definition is_post (r : request) : bool :=
  match r with
  | PostStart _ _ _ | PostTransfer _ _ _ _ _ | PostFinish _ _ _ => true
  | _ => false
  end.

(* ================================================================== *)
(** * Properties *)

(** ** Strings *)

Section StringFacts.

Lemma append_nil_r (s : string) : s ++ "" = s.
Proof. induction s as [|c s IH]; simpl; [reflexivity | now rewrite IH]. Qed.

Lemma append_assoc (a b c : string) : (a ++ b) ++ c = a ++ (b ++ c).
Proof. induction a as [|x a IH]; simpl; [reflexivity | now rewrite IH]. Qed.

Lemma append_length (a b : string) :
  String.length (a ++ b) = (String.length a + String.length b)%nat.
Proof. induction a as [|x a IH]; simpl; [reflexivity | now rewrite IH]. Qed.

Lemma prefix_app (a b : string) : prefix a (a ++ b) = true.
Proof.
  induction a as [|x a IH]; simpl.
  - now destruct b.
  - destruct (ascii_dec x x) as [_|n]; [exact IH | now elim n].
Qed.

Lemma prefix_inv (a s : string) :
  prefix a s = true -> exists suf, s = a ++ suf.
Proof.
  revert s; induction a as [|x a IH]; intros s H.
  - now exists s.
  - destruct s as [|y s]; simpl in H; [discriminate|].
    destruct (ascii_dec x y) as [->|_]; [|discriminate].
    destruct (IH _ H) as [suf ->]. now exists suf.
Qed.

Lemma contains_unfold (sub s : string) :
  contains sub s =
  prefix sub s || match s with "" => false | String _ rest => contains sub rest end.
Proof. now destruct s. Qed.

Lemma contains_intro (sub pre suf : string) :
  contains sub (pre ++ sub ++ suf) = true.
Proof.
  induction pre as [|c pre IH].
  - rewrite contains_unfold. simpl (_ ++ _). now rewrite prefix_app.
  - simpl. rewrite IH. apply orb_true_r.
Qed.

Lemma contains_inv (sub s : string) :
  contains sub s = true -> exists pre suf, s = pre ++ sub ++ suf.
Proof.
  induction s as [|c s IH]; intros H.
  - rewrite contains_unfold, orb_false_r in H.
    destruct (prefix_inv _ _ H) as [suf E]. now exists "", suf.
  - rewrite contains_unfold in H. apply orb_true_iff in H as [H|H].
    + destruct (prefix_inv _ _ H) as [suf E]. now exists "", suf.
    + destruct (IH H) as (pre & suf & ->). now exists (String c pre), suf.
Qed.

Lemma take_drop_while (p : ascii -> bool) (s : string) :
  s = take_while p s ++ drop_while p s.
Proof.
  induction s as [|c s IH]; simpl; [reflexivity|].
  destruct (p c); simpl; [now rewrite <- IH | reflexivity].
Qed.

Lemma take_while_all (p : ascii -> bool) (s : string) :
  forallb_str p (take_while p s) = true.
Proof.
  induction s as [|c s IH]; simpl; [reflexivity|].
  destruct (p c) eqn:E; simpl; [now rewrite E | reflexivity].
Qed.

Lemma drop_while_head (p : ascii -> bool) (s : string) :
  match drop_while p s with "" => True | String c _ => p c = false end.
Proof.
  induction s as [|c s IH]; simpl; [exact I|].
  destruct (p c) eqn:E; [exact IH | exact E].
Qed.

End StringFacts.

(** ** Identifier resolution *)

Section Resolution.

Lemma match_d_here_some (s tok : string) :
  match_d_here s = Some tok -> exists post, d_match_at s "" tok post.
Proof.
  unfold match_d_here. intros H.
  destruct s as [|c1 [|c2 [|c3 rest]]]; try discriminate;
    try (destruct c1 as [[] [] [] [] [] [] [] []]; discriminate).
  - destruct c1 as [[] [] [] [] [] [] [] []]; try discriminate.
    destruct c2 as [[] [] [] [] [] [] [] []]; discriminate.
  - destruct c1 as [[] [] [] [] [] [] [] []]; try discriminate.
    destruct c2 as [[] [] [] [] [] [] [] []]; try discriminate.
    destruct c3 as [[] [] [] [] [] [] [] []]; try discriminate.
    destruct (take_while id_char rest) as [|t ts] eqn:E; [discriminate|].
    injection H as <-. exists (drop_while id_char rest).
    repeat split.
    + rewrite <- E. simpl. now rewrite <- take_drop_while.
    + discriminate.
    + rewrite <- E. apply take_while_all.
    + apply drop_while_head.
Qed.

Lemma match_d_here_none (s : string) :
  match_d_here s = None -> ~ d_candidate s "".
Proof.
  intros H (c & rest & -> & Hc). simpl in H. rewrite Hc in H. discriminate.
Qed.

Lemma d_candidate_cons (c : ascii) (s pre : string) :
  d_candidate (String c s) pre ->
  pre = "" \/ exists pre', pre = String c pre' /\ d_candidate s pre'.
Proof.
  intros (x & rest & E & Hx). destruct pre as [|p pre]; [now left | right].
  simpl in E. injection E as -> ->. exists pre. split; [reflexivity|].
  now exists x, rest.
Qed.

Lemma search_d_unfold (url : string) :
  search_d url =
  match match_d_here url with
  | Some tok => Some tok
  | None => match url with "" => None | String _ rest => search_d rest end
  end.
Proof. now destruct url. Qed.

Lemma search_d_some (url tok : string) :
  search_d url = Some tok -> exists pre post, first_d_match url pre tok post.
Proof.
  induction url as [|c url IH]; intros H.
  - discriminate.
  - rewrite search_d_unfold in H.
    destruct (match_d_here (String c url)) as [t|] eqn:E.
    + injection H as ->. destruct (match_d_here_some _ _ E) as [post M].
      exists "", post. split; [exact M | intros; simpl; lia].
    + destruct (IH H) as (pre & post & (E1 & N & A & P) & F).
      exists (String c pre), post. split.
      * repeat split; try assumption. rewrite E1. reflexivity.
      * intros pre' C. destruct (d_candidate_cons _ _ _ C) as [-> | (p & -> & C')].
        -- now elim (match_d_here_none _ E).
        -- simpl. specialize (F _ C'). lia.
Qed.

Lemma search_d_none (url : string) : search_d url = None -> no_d_match url.
Proof.
  induction url as [|c url IH]; intros H pre C.
  - destruct C as (x & rest & E & _). destruct pre; discriminate.
  - rewrite search_d_unfold in H.
    destruct (match_d_here (String c url)) eqn:E; [discriminate|].
    destruct (d_candidate_cons _ _ _ C) as [-> | (p & -> & C')].
    + now elim (match_d_here_none _ E).
    + exact (IH H _ C').
Qed.

End Resolution.

Lemma prefix_cons_inv (a : string) (c : ascii) (s : string) :
  a <> "" -> prefix a (String c s) = true ->
  exists t s', a = String c t /\ s = t ++ s' /\
               (String.length a - 1)%nat = String.length t.
Proof.
  intros Ha P. destruct (prefix_inv _ _ P) as [s' E].
  destruct a as [|x t]; [now elim Ha|]. simpl in E. injection E as -> ->.
  exists t, s'. repeat split. simpl. lia.
Qed.

Section SplitFacts.

Variable sep : string.
Hypothesis sep_nonempty : sep <> "".

Lemma split_from_skip (x s cur : string) :
  split_from sep (x ++ s) (String.length x) cur = split_from sep s 0 cur.
Proof. induction x as [|c x IH]; simpl; [reflexivity | exact IH]. Qed.

Lemma split_from_cons (c : ascii) (s cur : string) :
  split_from sep (String c s) 0 cur =
  if prefix sep (String c s)
  then cur :: split_from sep s (String.length sep - 1) ""
  else split_from sep s 0 (cur ++ String c "").
Proof. reflexivity. Qed.

Lemma split_from_nonempty (s cur : string) (k : nat) : split_from sep s k cur <> [].
Proof.
  revert k cur; induction s as [|c s IH]; intros k cur; [discriminate|].
  destruct k; [|apply IH]. rewrite split_from_cons.
  destruct (prefix sep (String c s)); [discriminate | apply IH].
Qed.

Lemma last_cons_nonempty {A : Type} (a d : A) (l : list A) :
  l <> [] -> last (a :: l) d = last l d.
Proof. destruct l; [now intros H; elim H | reflexivity]. Qed.

Lemma split_from_absent (s cur : string) :
  contains sep s = false -> split_from sep s 0 cur = [cur ++ s].
Proof.
  revert cur; induction s as [|c s IH]; intros cur H.
  - simpl. now rewrite append_nil_r.
  - rewrite contains_unfold in H. apply orb_false_iff in H as [P C].
    rewrite split_from_cons, P, (IH _ C), append_assoc. reflexivity.
Qed.

Lemma split_from_last (n : nat) :
  forall s cur, (String.length s <= n)%nat -> contains sep s = true ->
  exists pre,
    s = pre ++ sep ++ last (split_from sep s 0 cur) "" /\
    contains sep (last (split_from sep s 0 cur) "") = false.
Proof.
  induction n as [|n IH]; intros s cur L C.
  - destruct s; [|simpl in L; lia].
    rewrite contains_unfold, orb_false_r in C.
    destruct (prefix_inv _ _ C) as [suf E]. destruct sep; [now elim sep_nonempty | discriminate].
  - destruct s as [|c s].
    { rewrite contains_unfold, orb_false_r in C.
      destruct (prefix_inv _ _ C) as [suf E].
      destruct sep; [now elim sep_nonempty | discriminate]. }
    rewrite split_from_cons. destruct (prefix sep (String c s)) eqn:P.
    + destruct (prefix_cons_inv sep c s sep_nonempty P) as (t & s' & Es & -> & Hl).
      assert (E0 : String c (t ++ s') = sep ++ s') by (rewrite Es; reflexivity).
      rewrite Hl, split_from_skip.
      rewrite last_cons_nonempty by apply split_from_nonempty.
      destruct (contains sep s') eqn:C'.
      * assert (L' : (String.length s' <= n)%nat).
        { simpl in L. rewrite append_length in L. lia. }
        destruct (IH s' "" L' C') as (pre & E & F).
        exists (sep ++ pre). split; [|exact F].
        rewrite append_assoc, <- E. exact E0.
      * rewrite (split_from_absent _ "" C'). simpl. exists "". split; [|exact C'].
        exact E0.
    + rewrite contains_unfold, P in C. simpl in C.
      assert (L' : (String.length s <= n)%nat) by (simpl in L; lia).
      destruct (IH s (cur ++ String c "") L' C) as (pre & E & F).
      exists (String c pre). split; [|exact F]. simpl. now rewrite <- E.
Qed.

End SplitFacts.

(** C7.  Resolution applies its three rules in order and is total: a
    reference with a [/d/<id>] segment resolves to the token captured at the
    leftmost such segment; one without, but containing [open?id=], resolves to
    what follows the marker (the text after its last occurrence); any other
    reference resolves to itself. *)
Theorem convert_drive_link_rules (url : string) :
  (exists pre tok post,
      first_d_match url pre tok post /\ convert_drive_link_to_file_id url = tok)
  \/ (no_d_match url /\
      exists pre,
        url = pre ++ open_id_marker ++ convert_drive_link_to_file_id url /\
        contains open_id_marker (convert_drive_link_to_file_id url) = false)
  \/ (no_d_match url /\
      (forall pre suf, url <> pre ++ open_id_marker ++ suf) /\
      convert_drive_link_to_file_id url = url).
Proof.
  unfold convert_drive_link_to_file_id.
  destruct (search_d url) as [tok|] eqn:S.
  - left. destruct (search_d_some _ _ S) as (pre & post & M).
    now exists pre, tok, post.
  - right. pose proof (search_d_none _ S) as N.
    destruct (contains open_id_marker url) eqn:C.
    + left. split; [exact N|].
      assert (Hne : open_id_marker <> "") by discriminate.
      exact (split_from_last _ Hne _ url "" (le_n _) C).
    + right. repeat split; try assumption.
      intros pre suf E. rewrite E, contains_intro in C. discriminate.
Qed.

Example convert_file_link :
  convert_drive_link_to_file_id
    "https://drive.google.com/file/d/1AbC-d_9/view?usp=sharing" = "1AbC-d_9".
Proof. reflexivity. Qed.

Example convert_open_link :
  convert_drive_link_to_file_id "https://drive.google.com/open?id=1AbC-d_9"
  = "1AbC-d_9".
Proof. reflexivity. Qed.

Example convert_raw_identifier :
  convert_drive_link_to_file_id "1AbC-d_9" = "1AbC-d_9".
Proof. reflexivity. Qed.

(** ** The Uploader *)

Section Uploader.

Variable data : list byte.
Variables page_id access_token : string.
Variable session_id : json.

Local Open Scope list_scope.

Local Abbreviation loop := (transfer_loop data page_id access_token session_id).
Local Abbreviation post := (post_at data page_id access_token session_id).
Local Abbreviation after := (after_transfers data page_id access_token session_id).

Lemma world_eta (w : world) :
  w = {| files := files w; log := log w; sent := sent w |}.
Proof. now destruct w. Qed.

Lemma readable_chunk (c : cursor) :
  readable data c ->
  read_chunk data (fst c) (snd c) = Ok (chunk_at data c) /\
  is_empty (chunk_at data c) = false.
Proof.
  intros (chunk & R & N). unfold chunk_at. rewrite R. split; [reflexivity|].
  destruct chunk; [now elim N | reflexivity].
Qed.

(** One turn of the loop on a response without error field. *)
Lemma transfer_loop_step (c : cursor) (r : list (string * json))
    (server : api_script) (w : world) :
  readable data c ->
  assoc "error" r = None ->
  loop (fst c) (snd c) (ok_object r :: server) w =
  let w2 := emit (chunk_event r) (send (post c) w) in
  if py_eq (fst (cursor_of r)) (snd (cursor_of r))
  then (Returned ByBreak, w2, server)
  else loop (fst (cursor_of r)) (snd (cursor_of r)) server w2.
Proof.
  intros R E. destruct (readable_chunk c R) as [Rc Ne].
  unfold ok_object. simpl transfer_loop. rewrite Rc, Ne.
  unfold py_in. rewrite E. reflexivity.
Qed.

(** One turn of the loop on a response with an error field. *)
Lemma transfer_loop_error (c : cursor) (r : list (string * json)) (err : json)
    (server : api_script) (w : world) :
  readable data c ->
  assoc "error" r = Some err ->
  loop (fst c) (snd c) (ok_object r :: server) w =
  (Returned ByReturn, emit (EvTransferError err) (send (post c) w), server).
Proof.
  intros R E. destruct (readable_chunk c R) as [Rc Ne].
  unfold ok_object. simpl transfer_loop. rewrite Rc, Ne.
  unfold py_in, py_getitem. rewrite E. reflexivity.
Qed.

Lemma removelast_cons2 {A : Type} (a b : A) (l : list A) :
  removelast (a :: b :: l) = a :: removelast (b :: l).
Proof. reflexivity. Qed.

Lemma after_transfers_cons (c : cursor) (r : list (string * json))
    (rs : list (list (string * json))) (w : world) :
  after (cursor_of r) rs (emit (chunk_event r) (send (post c) w)) =
  after c (r :: rs) w.
Proof.
  unfold after_transfers, emit, send. cbn [files log sent map].
  rewrite removelast_cons2. cbn [map].
  now rewrite <- !app_assoc.
Qed.

Lemma last_cons_default {A : Type} (l : list A) :
  forall a d : A, last (a :: l) d = last l a.
Proof.
  induction l as [|b l IH]; intros a d; [reflexivity|].
  change (last (a :: b :: l) d) with (last (b :: l) d).
  now rewrite !IH.
Qed.

Lemma end_cursor_cons (c : cursor) (r : list (string * json))
    (rs : list (list (string * json))) :
  end_cursor c (r :: rs) = end_cursor (cursor_of r) rs.
Proof. unfold end_cursor. cbn [map]. apply last_cons_default. Qed.

(** A run of responses that keeps the loop going is consumed, one transfer
    each, and the loop proceeds from the last cursor dictated. *)
Lemma transfer_loop_going (rs : list (list (string * json))) :
  forall (c : cursor) (server : api_script) (w : world),
    going data c rs ->
    loop (fst c) (snd c) (map ok_object rs ++ server) w =
    loop (fst (end_cursor c rs)) (snd (end_cursor c rs)) server
      (after c rs w).
Proof.
  induction rs as [|r rs IH]; intros c server w G.
  - unfold after_transfers. cbn. rewrite !app_nil_r. now rewrite <- world_eta.
  - destruct G as (R & E & Q & G).
    cbn [map app]. rewrite (transfer_loop_step c r _ w R E). cbv zeta. rewrite Q.
    now rewrite (IH _ _ _ G), after_transfers_cons, end_cursor_cons.
Qed.

End Uploader.

Section UploaderRuns.

Local Open Scope list_scope.

Variables filepath page_id access_token : string.
Variable data : list byte.
Variable start : list (string * json).

Local Abbreviation session_id := (field "upload_session_id" start).
Local Abbreviation video_id := (field "video_id" start).
Local Abbreviation file_size := (Z.of_nat (List.length data)).
Local Abbreviation post := (post_at data page_id access_token session_id).

(** The world once the Start request is made. *)
Local Abbreviation started w :=
  (send (PostStart page_id access_token file_size) (emit (EvUploading file_size) w)).

Lemma posts_upto_end (c : cursor) (rs : list (list (string * json))) :
  map post (removelast (c :: map cursor_of rs)) ++ [post (end_cursor c rs)] =
  map post (c :: map cursor_of rs).
Proof.
  unfold end_cursor. rewrite <- (last_cons_default (map cursor_of rs) c c).
  change [post (last (c :: map cursor_of rs) c)]
    with (map post [last (c :: map cursor_of rs) c]).
  rewrite <- map_app, <- app_removelast_last by discriminate. reflexivity.
Qed.

(** After a Start response with a session token and a run of responses that
    keeps the loop going, the Uploader is in its loop at the last cursor. *)
Lemma upload_body_going (rs : list (list (string * json))) (server : api_script)
    (w : world) :
  files w filepath = Some data ->
  truthy session_id = true ->
  going data (cursor_of start) rs ->
  upload_body filepath page_id access_token
    (ok_object start :: map ok_object rs ++ server) w =
  match transfer_loop data page_id access_token session_id
          (fst (end_cursor (cursor_of start) rs))
          (snd (end_cursor (cursor_of start) rs)) server
          (after_transfers data page_id access_token session_id
             (cursor_of start) rs (started w)) with
  | (Returned ByBreak, w3, server'') =>
      finish_upload page_id access_token session_id video_id server'' w3
  | (Returned ByReturn, w3, server'') => (Returned tt, w3, server'')
  | (Raised e, w3, server'') => (Raised e, w3, server'')
  | (Blocked, w3, server'') => (Blocked, w3, server'')
  end.
Proof.
  intros F T G. unfold upload_body, ok_object. rewrite F.
  cbn [dict_get bind]. fold session_id. rewrite T. cbn [negb].
  change (match assoc "start_offset" start with Some x => x | None => JNull end)
    with (fst (cursor_of start)).
  change (match assoc "end_offset" start with Some x => x | None => JNull end)
    with (snd (cursor_of start)).
  now rewrite (transfer_loop_going data page_id access_token session_id rs _ _ _ G).
Qed.

End UploaderRuns.

Lemma world_eq (f : string -> option (list byte)) (l l' : list event)
    (s s' : list request) :
  l = l' -> s = s' ->
  {| files := f; log := l; sent := s |} = {| files := f; log := l'; sent := s' |}.
Proof. now intros -> ->. Qed.

(** A run that ends with a response dictating equal ends, followed by an
    answer to the Finish request. *)
Lemma upload_run_completes
    (filepath page_id access_token : string) (data : list byte)
    (start : list (string * json))
    (mid : list (list (string * json))) (final : list (string * json))
    (finish_res : json) (rest : api_script) (w : world) :
  files w filepath = Some data ->
  truthy (field "upload_session_id" start) = true ->
  going data (cursor_of start) mid ->
  readable data (end_cursor (cursor_of start) mid) ->
  assoc "error" final = None ->
  py_eq (fst (cursor_of final)) (snd (cursor_of final)) = true ->
  upload_to_facebook filepath page_id access_token
    (ok_object start :: map ok_object mid
       ++ ok_object final :: Ok finish_res :: rest)%list w
  = (Returned tt,
     {| files := files w;
        log := (log w ++ EvUploading (Z.of_nat (List.length data))
                  :: map chunk_event mid
                  ++ [chunk_event final;
                      EvUploaded (video_url ++ py_str (field "video_id" start))])%list;
        sent := (sent w ++ PostStart page_id access_token (Z.of_nat (List.length data))
                   :: map (post_at data page_id access_token
                             (field "upload_session_id" start))
                          (cursor_of start :: map cursor_of mid)
                   ++ [PostFinish page_id (field "upload_session_id" start)
                         access_token])%list |},
     rest).
Proof.
  intros F T G R E Q. unfold upload_to_facebook.
  rewrite (upload_body_going filepath page_id access_token data start mid _ w F T G).
  rewrite (transfer_loop_step data page_id access_token _ _ final _ _ R E).
  cbv zeta. rewrite Q. unfold finish_upload, after_transfers, emit, send.
  cbn [files log sent]. do 2 f_equal. apply world_eq.
  - now rewrite <- !app_assoc.
  - rewrite <- (posts_upto_end page_id access_token data start).
    now rewrite <- !app_assoc.
Qed.

(** C1.  A run in which the Start response carries a session token and the
    transfer responses [mid ++ [final]] move the cursor until [final] dictates
    equal ends: the Uploader posts one transfer per response, each at the
    cursor then in force, then one Finish request, and reports the fixed URL
    followed by the [video_id] of the Start response. *)
Theorem upload_transfers_then_finish
    (filepath page_id access_token : string) (data : list byte)
    (start : list (string * json))
    (mid : list (list (string * json))) (final : list (string * json))
    (finish_res : json) (rest : api_script) (w : world) :
  files w filepath = Some data ->
  truthy (field "upload_session_id" start) = true ->
  going data (cursor_of start) mid ->
  readable data (end_cursor (cursor_of start) mid) ->
  assoc "error" final = None ->
  py_eq (fst (cursor_of final)) (snd (cursor_of final)) = true ->
  let session_id := field "upload_session_id" start in
  let file_size := Z.of_nat (List.length data) in
  let posts :=
    map (post_at data page_id access_token session_id)
        (cursor_of start :: map cursor_of mid) in
  upload_to_facebook filepath page_id access_token
    (ok_object start :: map ok_object (mid ++ [final]) ++ Ok finish_res :: rest)%list w
  = (Returned tt,
     {| files := files w;
        log := (log w ++ EvUploading file_size
                  :: map chunk_event (mid ++ [final])
                  ++ [EvUploaded (video_url ++ py_str (field "video_id" start))])%list;
        sent := (sent w ++ PostStart page_id access_token file_size
                   :: posts ++ [PostFinish page_id session_id access_token])%list |},
     rest)
  /\ List.length posts = List.length (mid ++ [final])%list
  /\ forallb is_transfer posts = true.
Proof.
  intros F T G R E Q session_id file_size posts. split; [|split].
  - rewrite !map_app, <- !app_assoc. cbn [map app].
    exact (upload_run_completes filepath page_id access_token data start mid final
             finish_res rest w F T G R E Q).
  - unfold posts. rewrite length_map, length_app. cbn. rewrite length_map. lia.
  - unfold posts. apply forallb_forall. intros x H.
    apply in_map_iff in H as (c & <- & _). reflexivity.
Qed.

(** C2.  A transfer response with an error field: the Uploader reports the
    error and returns; the transfer just answered is its last request, the
    replies still in the script are left untouched, and no Finish request is
    made. *)
Theorem upload_stops_on_transfer_error
    (filepath page_id access_token : string) (data : list byte)
    (start : list (string * json))
    (mid : list (list (string * json))) (res : list (string * json)) (err : json)
    (rest : api_script) (w : world) :
  files w filepath = Some data ->
  truthy (field "upload_session_id" start) = true ->
  going data (cursor_of start) mid ->
  readable data (end_cursor (cursor_of start) mid) ->
  assoc "error" res = Some err ->
  let session_id := field "upload_session_id" start in
  let file_size := Z.of_nat (List.length data) in
  let posts :=
    map (post_at data page_id access_token session_id)
        (cursor_of start :: map cursor_of mid) in
  upload_to_facebook filepath page_id access_token
    (ok_object start :: map ok_object mid ++ ok_object res :: rest)%list w
  = (Returned tt,
     {| files := files w;
        log := (log w ++ EvUploading file_size
                  :: map chunk_event mid ++ [EvTransferError err])%list;
        sent := (sent w ++ PostStart page_id access_token file_size :: posts)%list |},
     rest)
  /\ List.length posts = S (List.length mid)
  /\ existsb is_finish (PostStart page_id access_token file_size :: posts) = false.
Proof.
  intros F T G R E session_id file_size posts. split; [|split].
  - unfold upload_to_facebook.
    rewrite (upload_body_going filepath page_id access_token data start mid _ w F T G).
    rewrite (transfer_loop_error data page_id access_token _ _ res err _ _ R E).
    unfold after_transfers, emit, send. cbn [files log sent]. do 2 f_equal. apply world_eq.
    + now rewrite <- !app_assoc.
    + unfold posts, session_id.
      rewrite <- (posts_upto_end page_id access_token data start).
      now rewrite <- !app_assoc.
  - unfold posts. rewrite length_map. cbn. now rewrite length_map.
  - cbn [existsb is_finish orb]. unfold posts.
    induction (cursor_of start :: map cursor_of mid) as [|c l IH]; [reflexivity|].
    cbn. exact IH.
Qed.

(** C3.  A Start response without a session token: the Uploader reports the
    response as it came and returns; the Start request is its only one. *)
Theorem upload_stops_without_session
    (filepath page_id access_token : string) (data : list byte)
    (start : list (string * json)) (rest : api_script) (w : world) :
  files w filepath = Some data ->
  assoc "upload_session_id" start = None ->
  let file_size := Z.of_nat (List.length data) in
  upload_to_facebook filepath page_id access_token (ok_object start :: rest) w
  = (Returned tt,
     {| files := files w;
        log := (log w ++ [EvUploading file_size; EvSessionFailed (JObj start)])%list;
        sent := (sent w ++ [PostStart page_id access_token file_size])%list |},
     rest).
Proof.
  intros F S file_size. unfold upload_to_facebook, upload_body, ok_object.
  rewrite F. cbn [dict_get bind]. rewrite S. cbn [truthy negb].
  unfold emit, send. cbn [files log sent]. now rewrite <- app_assoc.
Qed.

(** C9.  A transfer response with neither an error field nor the two offset
    fields: both ends of the cursor become [None], the completion test
    succeeds, and the Uploader goes on to the Finish request and reports
    success. *)
Theorem upload_finishes_on_offsetless_response
    (filepath page_id access_token : string) (data : list byte)
    (start : list (string * json))
    (mid : list (list (string * json))) (res : list (string * json))
    (finish_res : json) (rest : api_script) (w : world) :
  files w filepath = Some data ->
  truthy (field "upload_session_id" start) = true ->
  going data (cursor_of start) mid ->
  readable data (end_cursor (cursor_of start) mid) ->
  assoc "error" res = None ->
  assoc "start_offset" res = None ->
  assoc "end_offset" res = None ->
  let session_id := field "upload_session_id" start in
  let file_size := Z.of_nat (List.length data) in
  let posts :=
    map (post_at data page_id access_token session_id)
        (cursor_of start :: map cursor_of mid) in
  cursor_of res = (JNull, JNull) /\
  py_eq (fst (cursor_of res)) (snd (cursor_of res)) = true /\
  upload_to_facebook filepath page_id access_token
    (ok_object start :: map ok_object mid ++ ok_object res :: Ok finish_res :: rest)%list w
  = (Returned tt,
     {| files := files w;
        log := (log w ++ EvUploading file_size
                  :: map chunk_event mid
                  ++ [EvChunkUploaded JNull JNull;
                      EvUploaded (video_url ++ py_str (field "video_id" start))])%list;
        sent := (sent w ++ PostStart page_id access_token file_size
                   :: posts ++ [PostFinish page_id session_id access_token])%list |},
     rest).
Proof.
  intros F T G R E S1 S2 session_id file_size posts.
  assert (C : cursor_of res = (JNull, JNull)).
  { unfold cursor_of, field. now rewrite S1, S2. }
  assert (Q : py_eq (fst (cursor_of res)) (snd (cursor_of res)) = true)
    by now rewrite C.
  split; [exact C | split; [exact Q|]].
  rewrite (upload_run_completes filepath page_id access_token data start mid res
             finish_res rest w F T G R E Q).
  unfold chunk_event. now rewrite C.
Qed.

(** ** True division

    The double nearest to a quotient, and what [int] makes of it. *)

Local Open Scope Z_scope.

Section TrueDivision.

Lemma round_half_even_bounds (a b : Z) :
  a / b <= round_half_even a b <= a / b + 1.
Proof.
  unfold round_half_even.
  destruct (2 * (a mod b) ?= b); [destruct (Z.even (a / b))| |]; lia.
Qed.

Lemma round_half_even_up (a b : Z) :
  round_half_even a b <> a / b -> b <= 2 * (a mod b).
Proof.
  unfold round_half_even.
  destruct (2 * (a mod b) ?= b) eqn:C; intros H.
  - apply Z.compare_eq in C. lia.
  - now elim H.
  - apply Z.compare_gt_iff in C. lia.
Qed.

Lemma nearest_double_exponent (n d : Z) :
  let s := Z.log2 n - Z.log2 d in
  snd (nearest_double n d) = Z.max (s - 52) (-1074) \/
  snd (nearest_double n d) = Z.max (s - 53) (-1074).
Proof.
  unfold nearest_double. cbv zeta.
  destruct (d * 2 ^ Z.max (Z.log2 n - Z.log2 d) 0 <=?
            n * 2 ^ Z.max (- (Z.log2 n - Z.log2 d)) 0); cbn [snd]; auto.
Qed.

Lemma nearest_double_mantissa (n d : Z) :
  let e := snd (nearest_double n d) in
  fst (nearest_double n d) =
  if 0 <=? e then round_half_even n (d * 2 ^ e)
  else round_half_even (n * 2 ^ (- e)) d.
Proof. reflexivity. Qed.

(** Below a quotient of 100 the exponent is at most -45. *)
Lemma small_quotient_exponent (n d : Z) :
  0 < n -> 0 < d -> n < 100 * d -> snd (nearest_double n d) <= -45.
Proof.
  intros Hn Hd Hq.
  assert (S : Z.log2 n - Z.log2 d <= 7).
  { pose proof (Z.log2_spec d Hd) as [_ Dhi].
    pose proof (Z.log2_nonneg d) as D0.
    assert (Z.log2 n < Z.log2 d + 8); [|lia].
    apply Z.log2_lt_pow2; [exact Hn|].
    replace (Z.log2 d + 8) with (Z.succ (Z.log2 d) + 7) by lia.
    rewrite Z.pow_add_r by lia. change (2 ^ 7) with 128. lia. }
  destruct (nearest_double_exponent n d) as [-> | ->]; lia.
Qed.

(** With a non-negative exponent the scaled divisor is at most [n / 2^51]. *)
Lemma large_quotient_scale (n d : Z) :
  0 < n -> 0 < d -> 0 <= snd (nearest_double n d) ->
  2 ^ 51 * (d * 2 ^ snd (nearest_double n d)) <= n.
Proof.
  intros Hn Hd He. set (e := snd (nearest_double n d)) in *.
  pose proof (Z.log2_spec d Hd) as [_ Dhi].
  pose proof (Z.log2_spec n Hn) as [Nlo _].
  pose proof (Z.log2_nonneg d) as D0.
  assert (E : e <= Z.log2 n - Z.log2 d - 52).
  { subst e. destruct (nearest_double_exponent n d) as [H | H]; rewrite H in *; lia. }
  assert (P : 2 ^ 51 * (2 ^ Z.succ (Z.log2 d) * 2 ^ e) <= 2 ^ Z.log2 n).
  { rewrite <- !Z.pow_add_r by lia. apply Z.pow_le_mono_r; lia. }
  assert (0 < 2 ^ e) by (apply Z.pow_pos_nonneg; lia).
  nia.
Qed.

Lemma int_truediv_defined (n d : Z) :
  0 < n < 2 ^ 1023 -> 0 < d -> exists v, int_truediv n d = Ok v.
Proof.
  intros [Hn Hb] Hd. unfold int_truediv.
  destruct (Z.eqb_spec d 0) as [|_]; [lia|].
  destruct (Z.eqb_spec n 0) as [|_]; [lia|].
  rewrite (Z.abs_eq n), (Z.abs_eq d) by lia.
  destruct (nearest_double n d) as [m e] eqn:N.
  destruct (Z.leb_spec 0 e) as [He|He]; [|eauto].
  assert (He' : 0 <= snd (nearest_double n d)) by now rewrite N.
  pose proof (large_quotient_scale n d Hn Hd He') as L.
  pose proof (nearest_double_mantissa n d) as M. cbv zeta in M.
  rewrite N in M, L. cbn [fst snd] in M, L.
  destruct (Z.leb_spec 0 e) as [_|]; [|lia].
  pose proof (round_half_even_bounds n (d * 2 ^ e)) as [_ B]. rewrite <- M in B.
  assert (P : 0 < 2 ^ e) by (apply Z.pow_pos_nonneg; lia).
  assert (Q : 0 < d * 2 ^ e) by nia.
  pose proof (Z.mul_div_le n (d * 2 ^ e) Q) as D.
  assert (m * 2 ^ e < 2 ^ 1024).
  { change (2 ^ 1024) with (2 * 2 ^ 1023).
    assert (n / (d * 2 ^ e) * 2 ^ e <= n) by nia.
    assert (2 ^ e <= n) by nia. nia. }
  destruct (Z.leb_spec (2 ^ 1024) (m * 2 ^ e)); [lia | eauto].
Qed.

(** For divisors below [2^46] the rounding of the quotient does not show in
    the percentage: it is the floor of the exact quotient, capped at 100. *)
Lemma int_truediv_percent (n d : Z) :
  0 < n < 2 ^ 1023 -> 0 < d < 2 ^ 46 ->
  exists v, int_truediv n d = Ok v /\ Z.min 100 v = Z.min 100 (n / d).
Proof.
  intros [Hn Hb] [Hd Hd']. unfold int_truediv.
  destruct (int_truediv_defined n d (conj Hn Hb) Hd) as [v0 Dv]. revert Dv.
  unfold int_truediv.
  destruct (Z.eqb_spec d 0) as [|_]; [lia|].
  destruct (Z.eqb_spec n 0) as [|_]; [lia|].
  rewrite (Z.abs_eq n), (Z.abs_eq d), (Z.sgn_pos n), (Z.sgn_pos d) by lia.
  pose proof (nearest_double_mantissa n d) as M. cbv zeta in M.
  pose proof (small_quotient_exponent n d Hn Hd) as Sm.
  pose proof (large_quotient_scale n d Hn Hd) as La.
  destruct (nearest_double n d) as [m e]. cbn [fst snd] in M, Sm, La.
  destruct (Z.leb_spec 0 e) as [He|He].
  - (* the quotient is at least 2^51 *)
    destruct (Z.leb_spec (2 ^ 1024) (m * 2 ^ e)); [discriminate|]. intros _.
    eexists; split; [reflexivity|].
    specialize (La He).
    assert (P : 0 < 2 ^ e) by (apply Z.pow_pos_nonneg; lia).
    pose proof (round_half_even_bounds n (d * 2 ^ e)) as [B _]. rewrite <- M in B.
    assert (Q : 0 < d * 2 ^ e) by nia.
    assert (2 ^ 51 <= n / (d * 2 ^ e)) by (apply Z.div_le_lower_bound; lia).
    assert (2 ^ 51 <= n / d) by (apply Z.div_le_lower_bound; nia).
    change (2 ^ 51) with 2251799813685248 in *.
    assert (2251799813685248 <= m * 2 ^ e) by nia.
    lia.
  - intros _. eexists; split; [reflexivity|].
    set (P := 2 ^ (- e)) in *.
    assert (Pp : 0 < P) by (apply Z.pow_pos_nonneg; lia).
    pose proof (round_half_even_bounds (n * P) d) as [B1 B2]. rewrite <- M in B1, B2.
    assert (K : n * P / d / P = n / d).
    { rewrite Z.div_div by lia. now rewrite Z.div_mul_cancel_r by lia. }
    assert (Lo : n / d <= m / P).
    { rewrite <- K. apply Z.div_le_mono; lia. }
    destruct (Z.le_gt_cases 100 (n / d)) as [Big|Small]; [lia|].
    assert (Hq : n < 100 * d).
    { destruct (Z.lt_ge_cases n (100 * d)) as [|Ge]; [assumption|].
      assert (100 <= n / d) by (apply Z.div_le_lower_bound; lia). lia. }
    specialize (Sm Hq).
    assert (P45 : 2 ^ 45 <= P).
    { subst P. apply Z.pow_le_mono_r; lia. }
    enough (m / P <= n / d) by lia.
    destruct (Z.eq_dec m (n * P / d)) as [->|Up]; [lia|].
    pose proof (round_half_even_up (n * P) d) as U. rewrite <- M in U.
    specialize (U Up).
    assert (Hm : m = n * P / d + 1) by lia.
    pose proof (Z.div_mod (n * P) d ltac:(lia)) as DM.
    pose proof (Z.mod_pos_bound (n * P) d Hd) as MB.
    pose proof (Z.div_mod n d ltac:(lia)) as DN.
    pose proof (Z.mod_pos_bound n d Hd) as NB.
    set (k := n / d) in *. set (r := n mod d) in *.
    set (fa := n * P / d) in *. set (ra := (n * P) mod d) in *.
    assert (m < (k + 1) * P).
    { change (2 ^ 46) with (2 * 2 ^ 45) in Hd'.
      assert (fa < (k + 1) * P) by nia.
      destruct (Z.eq_dec (fa + 1) ((k + 1) * P)) as [Eq|]; [|lia].
      exfalso.
      assert (P * (d - r) = d - ra) by nia.
      assert (1 <= d - r) by lia.
      nia. }
    assert (m / P < k + 1) by (apply Z.div_lt_upper_bound; lia).
    lia.
Qed.

End TrueDivision.

(** ** The Fetcher *)

Section Fetcher.

Local Open Scope list_scope.

Lemma final_response_world (file_id : string) (server rest : download_script)
    (w w1 : world) (resp : response) (consumed : bool) :
  final_response file_id server w = (Returned (resp, consumed), w1, rest) ->
  files w1 = files w /\ log w1 = log w /\ (consumed = true -> fault resp = None).
Proof.
  unfold final_response. destruct server as [|[r|e] server]; try discriminate.
  unfold get_confirm_info_from_form, read_text.
  destruct (fault r) eqn:Fr; [discriminate|]. cbn [bind].
  set (info := match form r with
               | Some f => match confirm_input f, uuid_input f with
                           | Some c, Some u => Ok (c, u)
                           | _, _ => Ok (None, None)
                           end
               | None => Ok (None, None)
               end).
  assert (I : exists t u, info = Ok (t, u)).
  { subst info. destruct (form r) as [f|]; [|now exists None, None].
    destruct (confirm_input f), (uuid_input f); eauto. }
  destruct I as (t & u & ->).
  destruct (truthy_str t && truthy_str u).
  - destruct server as [|[r'|e'] server]; try discriminate.
    intros H. injection H as <- <- <- <-. repeat split. discriminate.
  - intros H. injection H as <- <- <- <-. repeat split. now intros _.
Qed.

Lemma iter_slices_upto_concat (n : nat) :
  (0 < n)%nat ->
  forall (fuel : nat) (data : list byte),
    (List.length data <= fuel)%nat -> List.concat (iter_slices_upto fuel n data) = data.
Proof.
  intros Hn. induction fuel as [|fuel IH]; intros data L.
  - destruct data; [reflexivity | simpl in L; lia].
  - destruct data as [|b data]; [reflexivity|].
    cbn [iter_slices_upto List.concat]. rewrite IH.
    + apply firstn_skipn.
    + rewrite length_skipn. cbn [List.length] in *. lia.
Qed.

Lemma iter_content_concat (resp : response) (consumed : bool) :
  List.concat (fst (iter_content resp consumed)) = List.concat (body resp).
Proof.
  unfold iter_content. destruct consumed; [|reflexivity]. cbn [fst].
  apply iter_slices_upto_concat; [|apply le_n].
  change (0 < Z.to_nat 32768)%nat. lia.
Qed.

Lemma running_totals_bounds (chunks : list (list byte)) :
  forall (d t : Z),
    In t (running_totals d chunks) ->
    d < t <= d + Z.of_nat (List.length (List.concat chunks)).
Proof.
  induction chunks as [|c chunks IH]; intros d t H; [now elim H|].
  cbn [running_totals List.concat] in *. rewrite length_app.
  destruct c as [|b c]; cbn [is_empty] in H.
  - specialize (IH _ _ H). simpl. lia.
  - destruct H as [<- | H].
    + simpl List.length. lia.
    + specialize (IH _ _ H). simpl List.length in *. lia.
Qed.

Lemma files_append_file (path : string) (chunk : list byte) (w : world) (old : list byte) :
  files w path = Some old ->
  files (append_file path chunk w) path = Some (old ++ chunk) /\
  (forall p, p <> path -> files (append_file path chunk w) p = files w p).
Proof.
  intros F. unfold append_file, store. cbn [files]. rewrite F, String.eqb_refl.
  split; [reflexivity|]. intros p N.
  now destruct (String.eqb_spec p path).
Qed.

(** The copy loop when every percentage can be computed. *)
Lemma write_chunks_run (dest : string) (content_length : Z)
    (chunks : list (list byte)) :
  content_length <> 0 ->
  forall (d : Z) (w : world) (old : list byte),
    (forall t, In t (running_totals d chunks) ->
               exists p, progress_percent content_length t = Ok p) ->
    files w dest = Some old ->
    exists w' ps,
      write_chunks dest content_length chunks d w = (Ok tt, w') /\
      files w' dest = Some (old ++ List.concat chunks) /\
      (forall p, p <> dest -> files w' p = files w p) /\
      sent w' = sent w /\
      log w' = log w ++ map EvProgress ps /\
      Forall2 (fun t p => progress_percent content_length t = Ok p)
              (running_totals d chunks) ps.
Proof.
  intros Hcl. induction chunks as [|c chunks IH]; intros d w old P F.
  - exists w, []. cbn. rewrite !app_nil_r. repeat split; auto.
  - cbn [write_chunks running_totals List.concat] in *.
    destruct c as [|b c]; cbn [is_empty] in *.
    + exact (IH d w old P F).
    + destruct (Z.eqb_spec content_length 0) as [|_]; [contradiction|].
      set (d' := d + Z.of_nat (List.length (b :: c))) in *.
      destruct (P d' (or_introl eq_refl)) as [p Hp]. rewrite Hp.
      destruct (files_append_file dest (b :: c) w old F) as [F1 F2].
      destruct (IH d' (emit (EvProgress p) (append_file dest (b :: c) w))
                  (old ++ b :: c) (fun t H => P t (or_intror H)) F1)
        as (w' & ps & R & A & B & C & D & E).
      exists w', (p :: ps). rewrite R. repeat split.
      * now rewrite A, <- app_assoc.
      * intros q N. rewrite (B q N). cbn [emit files]. exact (F2 q N).
      * rewrite C. reflexivity.
      * rewrite D. cbn [emit log map]. now rewrite <- app_assoc.
      * now constructor.
Qed.

Lemma spec_percentage_mono (content_length a b : Z) :
  0 < content_length -> a <= b ->
  spec_percentage content_length a <= spec_percentage content_length b.
Proof.
  intros Hc H. unfold spec_percentage.
  assert (a * 100 / content_length <= b * 100 / content_length)
    by (apply Z.div_le_mono; lia).
  lia.
Qed.

Lemma percentages_non_decreasing (content_length : Z) (chunks : list (list byte)) :
  0 < content_length ->
  forall d, non_decreasing (map (spec_percentage content_length) (running_totals d chunks)).
Proof.
  intros Hc. induction chunks as [|c chunks IH]; intros d; [exact I|].
  cbn [running_totals]. destruct c as [|b c]; cbn [is_empty]; [apply IH|].
  set (d' := d + Z.of_nat (List.length (b :: c))).
  specialize (IH d'). cbn [map non_decreasing].
  destruct (running_totals d' chunks) as [|t ts] eqn:E; [exact I|].
  cbn [map] in *. split; [|exact IH].
  apply spec_percentage_mono; [exact Hc|].
  assert (In t (running_totals d' chunks)) by (rewrite E; now left).
  pose proof (running_totals_bounds chunks d' t H). lia.
Qed.

Lemma running_totals_length (chunks : list (list byte)) :
  forall d,
    List.length (running_totals d chunks) =
    List.length (filter (fun c => negb (is_empty c)) chunks).
Proof.
  induction chunks as [|c chunks IH]; intros d; [reflexivity|].
  cbn [running_totals filter]. destruct c; cbn [is_empty negb]; [apply IH|].
  cbn [List.length]. now rewrite IH.
Qed.

End Fetcher.

Section FetcherRuns.

Local Open Scope list_scope.

Variables file_id dest : string.

Lemma download_from_final (server rest : download_script) (w w1 : world)
    (resp : response) (consumed : bool) :
  final_response file_id server w = (Returned (resp, consumed), w1, rest) ->
  download_video_file file_id dest server w =
  (fst (save_response resp consumed dest w1),
   snd (save_response resp consumed dest w1), rest).
Proof.
  intros F. unfold download_video_file. rewrite F.
  now destruct (save_response resp consumed dest w1).
Qed.

Lemma invalid_content_true (content_type : string) (content_length : Z) :
  contains "html" (lower content_type) = true \/ content_length < 1000000 ->
  invalid_content content_type content_length = true.
Proof.
  unfold invalid_content. intros [-> | H]; [reflexivity|].
  apply orb_true_iff. right. now apply Z.ltb_lt.
Qed.

Lemma invalid_content_false (content_type : string) (content_length : Z) :
  contains "html" (lower content_type) = false -> 1000000 <= content_length ->
  invalid_content content_type content_length = false.
Proof.
  unfold invalid_content. intros -> H. cbn [orb]. now apply Z.ltb_ge.
Qed.

Lemma files_store_other (path p : string) (data : list byte) (w : world) :
  p <> path -> files (store path data w) p = files w p.
Proof.
  intros N. unfold store. cbn [files]. now destruct (String.eqb_spec p path).
Qed.

Lemma files_store_same (path : string) (data : list byte) (w : world) :
  files (store path data w) path = Some data.
Proof. unfold store. cbn [files]. now rewrite String.eqb_refl. Qed.

(** A response classified invalid: the event, the diagnostic file, and no
    other file touched, whether or not the text can be read. *)
Lemma save_response_invalid (resp : response) (consumed : bool) (w : world)
    (content_length : Z) :
  header_content_length resp = Ok content_length ->
  invalid_content (header_content_type resp) content_length = true ->
  exists out w2,
    save_response resp consumed dest w = (out, w2) /\
    out <> Returned true /\
    (consumed = true \/ fault resp = None ->
     out = Returned false /\
     files w2 ERROR_HTML_FILE = Some (utf8_encode (text resp))) /\
    (forall p, p <> ERROR_HTML_FILE -> files w2 p = files w p) /\
    log w2 = log w ++ [EvInvalidContent].
Proof.
  intros L V. unfold save_response. rewrite L, V.
  assert (K : forall t : string,
             files (store ERROR_HTML_FILE (utf8_encode t)
                      (store ERROR_HTML_FILE [] (emit EvInvalidContent w)))
                   ERROR_HTML_FILE = Some (utf8_encode t) /\
             (forall p, p <> ERROR_HTML_FILE ->
                files (store ERROR_HTML_FILE (utf8_encode t)
                         (store ERROR_HTML_FILE [] (emit EvInvalidContent w))) p
                = files w p)).
  { intros t. split; [apply files_store_same|].
    intros p N. now rewrite !files_store_other by exact N. }
  destruct consumed; [|unfold read_text; destruct (fault resp) as [e|]].
  - eexists _, _. split; [reflexivity|]. split; [discriminate|].
    split; [intros _; split; [reflexivity | apply K]|].
    split; [apply K | reflexivity].
  - eexists _, _. split; [reflexivity|]. split; [discriminate|].
    split; [intros [H|H]; discriminate|].
    split; [|reflexivity].
    intros p N. now rewrite files_store_other by exact N.
  - eexists _, _. split; [reflexivity|]. split; [discriminate|].
    split; [intros _; split; [reflexivity | apply K]|].
    split; [apply K | reflexivity].
Qed.

Lemma percent_bound (t : Z) : t < 2 ^ 63 -> t * 100 < 2 ^ 1023.
Proof.
  intros H. assert (B : 2 ^ 63 * 100 <= 2 ^ 1023).
  { apply Z.leb_le. vm_compute. reflexivity. }
  lia.
Qed.

Lemma progress_percent_defined (content_length t : Z) :
  0 < content_length -> 0 < t < 2 ^ 63 ->
  exists p, progress_percent content_length t = Ok p.
Proof.
  intros Hc [H0 H1]. unfold progress_percent.
  destruct (int_truediv_defined (t * 100) content_length) as [v ->];
    [split; [lia | now apply percent_bound] | exact Hc |].
  now eexists.
Qed.

Lemma progress_percent_spec (content_length t : Z) :
  0 < content_length < 2 ^ 46 -> 0 < t < 2 ^ 63 ->
  progress_percent content_length t = Ok (spec_percentage content_length t).
Proof.
  intros Hc [H0 H1]. unfold progress_percent, spec_percentage.
  destruct (int_truediv_percent (t * 100) content_length) as (v & -> & E);
    [split; [lia | now apply percent_bound] | exact Hc |].
  cbn [bind]. now rewrite E.
Qed.

(** A response classified valid whose body fits a file: every chunk is
    written and reported, and the copy ends on the fault of the transfer if
    there is one. *)
Lemma save_response_valid (resp : response) (consumed : bool) (w : world)
    (content_length : Z) :
  header_content_length resp = Ok content_length ->
  invalid_content (header_content_type resp) content_length = false ->
  0 < content_length ->
  body_size resp < 2 ^ 63 ->
  exists w2 ps,
    save_response resp consumed dest w =
      match snd (iter_content resp consumed) with
      | Some e => (Returned false, emit (EvDownloadFailed e) w2)
      | None => (Returned true, emit EvDownloadComplete w2)
      end /\
    files w2 dest = Some (List.concat (fst (iter_content resp consumed))) /\
    log w2 = log w ++ map EvProgress ps /\
    Forall2 (fun t p => progress_percent content_length t = Ok p)
            (running_totals 0 (fst (iter_content resp consumed))) ps.
Proof.
  intros L V Hc B. unfold save_response. rewrite L, V.
  destruct (iter_content resp consumed) as [chunks broken] eqn:I.
  assert (C : List.concat chunks = List.concat (body resp)).
  { rewrite <- (iter_content_concat resp consumed). now rewrite I. }
  destruct (write_chunks_run dest content_length chunks ltac:(lia) 0
              (store dest [] w) [])
    as (w2 & ps & R & A & _ & _ & D & E).
  - intros t H. apply progress_percent_defined; [exact Hc|].
    pose proof (running_totals_bounds chunks 0 t H) as [T0 T1].
    rewrite C in T1. unfold body_size in B. lia.
  - apply files_store_same.
  - exists w2, ps. rewrite R. cbn [fst snd]. repeat split; auto.
Qed.

End FetcherRuns.

Lemma Forall2_progress_spec (content_length : Z) (totals ps : list Z) :
  (forall t, In t totals ->
     progress_percent content_length t = Ok (spec_percentage content_length t)) ->
  Forall2 (fun t p => progress_percent content_length t = Ok p) totals ps ->
  ps = map (spec_percentage content_length) totals.
Proof.
  intros S F. induction F as [|t p totals ps H F IH]; [reflexivity|].
  cbn [map]. rewrite (S t (or_introl eq_refl)) in H. injection H as <-.
  f_equal. apply IH. intros u Hu. apply S. now right.
Qed.

Lemma spec_percentage_le_100 (content_length : Z) (l : list Z) :
  Forall (fun p => p <= 100) (map (spec_percentage content_length) l).
Proof.
  apply Forall_forall. intros p H. apply in_map_iff in H as (t & <- & _).
  unfold spec_percentage. lia.
Qed.

(** C4.  The final response names HTML as its content type, or declares a
    length below 1,000,000 (whatever the content type): the Fetcher reports
    it, writes the text of the response to the diagnostic file, returns
    [False] and leaves the Local Artifact as it was. *)
Theorem download_rejects_invalid_content
    (file_id dest : string) (server rest : download_script) (w w1 : world)
    (resp : response) (consumed : bool) (content_length : Z) :
  final_response file_id server w = (Returned (resp, consumed), w1, rest) ->
  header_content_length resp = Ok content_length ->
  contains "html" (lower (header_content_type resp)) = true
    \/ content_length < 1000000 ->
  fault resp = None ->
  dest <> ERROR_HTML_FILE ->
  exists w2,
    download_video_file file_id dest server w = (Returned false, w2, rest) /\
    files w2 ERROR_HTML_FILE = Some (utf8_encode (text resp)) /\
    files w2 dest = files w dest /\
    log w2 = (log w ++ [EvInvalidContent])%list.
Proof.
  intros F L V T N.
  destruct (final_response_world _ _ _ _ _ _ _ F) as (Fw & Lw & _).
  destruct (save_response_invalid dest resp consumed w1 content_length L
              (invalid_content_true _ _ V))
    as (out & w2 & S & _ & Ok1 & Keep & Lg).
  destruct (Ok1 (or_intror T)) as [-> D].
  exists w2. rewrite (download_from_final file_id dest _ _ _ _ _ _ F), S.
  cbn [fst snd]. repeat split.
  - exact D.
  - now rewrite (Keep dest N), Fw.
  - now rewrite Lg, Lw.
Qed.

(** C5.  A valid download with a declared length: one percentage event per
    non-empty chunk read, each the floor of [bytes_downloaded * 100 /
    content_length] capped at 100 for the bytes read so far; the percentages
    never decrease and never exceed 100.  The source computes the quotient
    in double precision, which agrees with the floor for declared lengths
    below [2^46] and bodies that fit a file. *)
Theorem download_progress_percentages
    (file_id dest : string) (server rest : download_script) (w w1 : world)
    (resp : response) (consumed : bool) (content_length : Z) :
  final_response file_id server w = (Returned (resp, consumed), w1, rest) ->
  header_content_length resp = Ok content_length ->
  contains "html" (lower (header_content_type resp)) = false ->
  1000000 <= content_length < 2 ^ 46 ->
  body_size resp < 2 ^ 63 ->
  let chunks := fst (iter_content resp consumed) in
  let percents := map (spec_percentage content_length) (running_totals 0 chunks) in
  (exists out w2 closing,
      download_video_file file_id dest server w = (out, w2, rest) /\
      log w2 = (log w ++ map EvProgress percents ++ [closing])%list /\
      closes_copy closing) /\
  List.length percents = List.length (filter (fun c => negb (is_empty c)) chunks) /\
  non_decreasing percents /\
  Forall (fun p => p <= 100) percents.
Proof.
  intros F L H [C0 C1] B chunks percents.
  destruct (final_response_world _ _ _ _ _ _ _ F) as (_ & Lw & _).
  split; [|split; [|split]].
  - destruct (save_response_valid dest resp consumed w1 content_length L
                (invalid_content_false _ _ H C0) ltac:(lia) B)
      as (w2 & ps & S & _ & Lg & P).
    assert (E : ps = percents).
    { apply Forall2_progress_spec; [|exact P].
      intros t Ht. apply progress_percent_spec; [lia|].
      pose proof (running_totals_bounds _ 0 t Ht) as [T0 T1].
      unfold chunks in T1. rewrite iter_content_concat in T1.
      unfold body_size in B. lia. }
    rewrite (download_from_final file_id dest _ _ _ _ _ _ F), S.
    destruct (snd (iter_content resp consumed)) as [e|]; cbn [fst snd].
    + exists (Returned false), (emit (EvDownloadFailed e) w2), (EvDownloadFailed e).
      split; [reflexivity|]. split; [|right; now exists e].
      cbn [emit log]. now rewrite Lg, Lw, E, <- app_assoc.
    + exists (Returned true), (emit EvDownloadComplete w2), EvDownloadComplete.
      split; [reflexivity|]. split; [|now left].
      cbn [emit log]. now rewrite Lg, Lw, E, <- app_assoc.
  - unfold percents. rewrite length_map. apply running_totals_length.
  - apply percentages_non_decreasing. lia.
  - apply spec_percentage_le_100.
Qed.

(** C6.  A response classified valid whose transfer does not fail: the copy
    completes, the Local Artifact holds the chunks received, in order, which
    are the bytes of the body, and the Fetcher returns [True]. *)
Theorem download_copies_stream
    (file_id dest : string) (server rest : download_script) (w w1 : world)
    (resp : response) (consumed : bool) (content_length : Z) :
  final_response file_id server w = (Returned (resp, consumed), w1, rest) ->
  header_content_length resp = Ok content_length ->
  contains "html" (lower (header_content_type resp)) = false ->
  1000000 <= content_length ->
  fault resp = None ->
  body_size resp < 2 ^ 63 ->
  exists w2,
    download_video_file file_id dest server w = (Returned true, w2, rest) /\
    files w2 dest = Some (List.concat (fst (iter_content resp consumed))) /\
    List.concat (fst (iter_content resp consumed)) = List.concat (body resp) /\
    last (log w2) EvInvalidContent = EvDownloadComplete.
Proof.
  intros F L H C0 T B.
  destruct (save_response_valid dest resp consumed w1 content_length L
              (invalid_content_false _ _ H C0) ltac:(lia) B)
    as (w2 & ps & S & D & Lg & _).
  assert (Nf : snd (iter_content resp consumed) = None).
  { unfold iter_content. destruct consumed; [reflexivity | exact T]. }
  rewrite Nf in S.
  exists (emit EvDownloadComplete w2).
  rewrite (download_from_final file_id dest _ _ _ _ _ _ F), S. cbn [fst snd].
  repeat split.
  - exact D.
  - apply iter_content_concat.
  - cbn [emit log]. apply last_last.
Qed.

(** C10.  A final response without a content-length header: the length is
    taken as 0, so the response is classified invalid whatever its content
    type and body, the Fetcher does not return [True], and the Local Artifact
    is left as it was. *)
Theorem download_without_length_is_invalid
    (file_id dest : string) (server rest : download_script) (w w1 : world)
    (resp : response) (consumed : bool) :
  final_response file_id server w = (Returned (resp, consumed), w1, rest) ->
  header_get "content-length" (headers resp) = None ->
  dest <> ERROR_HTML_FILE ->
  header_content_length resp = Ok 0 /\
  invalid_content (header_content_type resp) 0 = true /\
  exists out w2,
    download_video_file file_id dest server w = (out, w2, rest) /\
    out <> Returned true /\
    (fault resp = None -> out = Returned false) /\
    files w2 dest = files w dest /\
    log w2 = (log w ++ [EvInvalidContent])%list.
Proof.
  intros F A N.
  assert (L : header_content_length resp = Ok 0).
  { unfold header_content_length. now rewrite A. }
  assert (V : invalid_content (header_content_type resp) 0 = true).
  { apply invalid_content_true. right. lia. }
  split; [exact L | split; [exact V|]].
  destruct (final_response_world _ _ _ _ _ _ _ F) as (Fw & Lw & _).
  destruct (save_response_invalid dest resp consumed w1 0 L V)
    as (out & w2 & S & NT & Ok1 & Keep & Lg).
  exists out, w2. rewrite (download_from_final file_id dest _ _ _ _ _ _ F), S.
  cbn [fst snd]. repeat split.
  - exact NT.
  - intros T. now destruct (Ok1 (or_intror T)).
  - now rewrite (Keep dest N), Fw.
  - now rewrite Lg, Lw.
Qed.

(** The body of [upload_to_facebook] runs under [try]: no exception leaves
    the Uploader. *)
Lemma upload_never_raises (filepath page_id access_token : string)
    (server : api_script) (w : world) (e : exn) :
  fst (fst (upload_to_facebook filepath page_id access_token server w)) <> Raised e.
Proof.
  unfold upload_to_facebook.
  destruct (upload_body filepath page_id access_token server w) as [[[u|e'|] w'] s'];
    cbn [fst]; discriminate.
Qed.

(** C8.  An exception raised by the first request of the Fetcher, or by the
    request of the Credential Checker, is not caught: it leaves the
    operation, and no event is reported.  So does the [ValueError] of a
    content-length header that [int] rejects. *)
Theorem fetcher_and_checker_let_exceptions_escape
    (file_id dest token page_id : string) (w : world) :
  download_video_file file_id dest [Raise RequestException] w
    = (Raised RequestException, send (GetDownload file_id) w, []) /\
  test_token token page_id [Raise RequestException] w
    = (Raised RequestException, send (GetPage page_id token) w, []) /\
  download_video_file file_id dest [Ok sample_garbled] w
    = (Raised ValueError, send (GetDownload file_id) w, []).
Proof. repeat split. Qed.

(** ** The properties on the sample runs *)

Ltac solve_readable := eexists; split; [reflexivity | discriminate].

Lemma upload_transfers_then_finish_witness :
  files sample_world TEMP_FILENAME = Some sample_video /\
  truthy (field "upload_session_id" sample_start) = true /\
  going sample_video (cursor_of sample_start) [sample_next] /\
  readable sample_video (end_cursor (cursor_of sample_start) [sample_next]) /\
  assoc "error" sample_done = None /\
  py_eq (fst (cursor_of sample_done)) (snd (cursor_of sample_done)) = true /\
  upload_to_facebook TEMP_FILENAME "page" "token"
    [ok_object sample_start; ok_object sample_next; ok_object sample_done;
     Ok sample_finish] sample_world
  = (Returned tt,
     {| files := files sample_world;
        log := [EvUploading 5; EvChunkUploaded (JStr "3") (JStr "5");
                EvChunkUploaded (JStr "5") (JStr "5");
                EvUploaded "https://www.facebook.com/video.php?v=987"];
        sent := [PostStart "page" "token" 5;
                 PostTransfer "page" (JStr "s1") (JStr "0") "token" [x00; x01; x02];
                 PostTransfer "page" (JStr "s1") (JStr "3") "token" [x03; x04];
                 PostFinish "page" (JStr "s1") "token"] |},
     []).
Proof.
  assert (F : files sample_world TEMP_FILENAME = Some sample_video) by reflexivity.
  assert (T : truthy (field "upload_session_id" sample_start) = true) by reflexivity.
  assert (G : going sample_video (cursor_of sample_start) [sample_next]).
  { split; [solve_readable|]. repeat split. }
  assert (R : readable sample_video (end_cursor (cursor_of sample_start) [sample_next]))
    by solve_readable.
  assert (E : assoc "error" sample_done = None) by reflexivity.
  assert (Q : py_eq (fst (cursor_of sample_done)) (snd (cursor_of sample_done)) = true)
    by reflexivity.
  repeat (split; [assumption|]).
  exact (proj1 (upload_transfers_then_finish TEMP_FILENAME "page" "token" sample_video
                  sample_start [sample_next] sample_done sample_finish []
                  sample_world F T G R E Q)).
Defined.

Lemma upload_stops_on_transfer_error_witness :
  files sample_world TEMP_FILENAME = Some sample_video /\
  truthy (field "upload_session_id" sample_start) = true /\
  going sample_video (cursor_of sample_start) [sample_next] /\
  readable sample_video (end_cursor (cursor_of sample_start) [sample_next]) /\
  assoc "error" sample_error
    = Some (JObj [("message", JStr "quota"); ("code", JInt 6000)]) /\
  upload_to_facebook TEMP_FILENAME "page" "token"
    [ok_object sample_start; ok_object sample_next; ok_object sample_error;
     Ok sample_finish] sample_world
  = (Returned tt,
     {| files := files sample_world;
        log := [EvUploading 5; EvChunkUploaded (JStr "3") (JStr "5");
                EvTransferError (JObj [("message", JStr "quota"); ("code", JInt 6000)])];
        sent := [PostStart "page" "token" 5;
                 PostTransfer "page" (JStr "s1") (JStr "0") "token" [x00; x01; x02];
                 PostTransfer "page" (JStr "s1") (JStr "3") "token" [x03; x04]] |},
     [Ok sample_finish]).
Proof.
  assert (F : files sample_world TEMP_FILENAME = Some sample_video) by reflexivity.
  assert (T : truthy (field "upload_session_id" sample_start) = true) by reflexivity.
  assert (G : going sample_video (cursor_of sample_start) [sample_next]).
  { split; [solve_readable|]. repeat split. }
  assert (R : readable sample_video (end_cursor (cursor_of sample_start) [sample_next]))
    by solve_readable.
  assert (E : assoc "error" sample_error
              = Some (JObj [("message", JStr "quota"); ("code", JInt 6000)]))
    by reflexivity.
  repeat (split; [assumption|]).
  exact (proj1 (upload_stops_on_transfer_error TEMP_FILENAME "page" "token"
                  sample_video sample_start [sample_next] sample_error _
                  [Ok sample_finish] sample_world F T G R E)).
Defined.

Lemma upload_stops_without_session_witness :
  files sample_world TEMP_FILENAME = Some sample_video /\
  assoc "upload_session_id" sample_error = None /\
  upload_to_facebook TEMP_FILENAME "page" "token"
    [ok_object sample_error; ok_object sample_next] sample_world
  = (Returned tt,
     {| files := files sample_world;
        log := [EvUploading 5; EvSessionFailed (JObj sample_error)];
        sent := [PostStart "page" "token" 5] |},
     [ok_object sample_next]).
Proof.
  assert (F : files sample_world TEMP_FILENAME = Some sample_video) by reflexivity.
  assert (S : assoc "upload_session_id" sample_error = None) by reflexivity.
  repeat (split; [assumption|]).
  exact (upload_stops_without_session TEMP_FILENAME "page" "token" sample_video
           sample_error [ok_object sample_next] sample_world F S).
Defined.

Lemma upload_finishes_on_offsetless_response_witness :
  files sample_world TEMP_FILENAME = Some sample_video /\
  truthy (field "upload_session_id" sample_start) = true /\
  going sample_video (cursor_of sample_start) [] /\
  readable sample_video (end_cursor (cursor_of sample_start) []) /\
  assoc "error" sample_bare = None /\
  assoc "start_offset" sample_bare = None /\
  assoc "end_offset" sample_bare = None /\
  upload_to_facebook TEMP_FILENAME "page" "token"
    [ok_object sample_start; ok_object sample_bare; Ok sample_finish] sample_world
  = (Returned tt,
     {| files := files sample_world;
        log := [EvUploading 5; EvChunkUploaded JNull JNull;
                EvUploaded "https://www.facebook.com/video.php?v=987"];
        sent := [PostStart "page" "token" 5;
                 PostTransfer "page" (JStr "s1") (JStr "0") "token" [x00; x01; x02];
                 PostFinish "page" (JStr "s1") "token"] |},
     []).
Proof.
  assert (F : files sample_world TEMP_FILENAME = Some sample_video) by reflexivity.
  assert (T : truthy (field "upload_session_id" sample_start) = true) by reflexivity.
  assert (G : going sample_video (cursor_of sample_start) []) by exact I.
  assert (R : readable sample_video (end_cursor (cursor_of sample_start) []))
    by solve_readable.
  assert (E : assoc "error" sample_bare = None) by reflexivity.
  assert (S1 : assoc "start_offset" sample_bare = None) by reflexivity.
  assert (S2 : assoc "end_offset" sample_bare = None) by reflexivity.
  repeat (split; [assumption|]).
  exact (proj2 (proj2 (upload_finishes_on_offsetless_response TEMP_FILENAME "page"
                         "token" sample_video sample_start [] sample_bare
                         sample_finish [] sample_world F T G R E S1 S2))).
Defined.

Lemma download_rejects_invalid_content_witness :
  final_response "f1" [Ok sample_small] sample_world
    = (Returned (sample_small, true), send (GetDownload "f1") sample_world, []) /\
  header_content_length sample_small = Ok 512 /\
  (contains "html" (lower (header_content_type sample_small)) = true \/ 512 < 1000000) /\
  fault sample_small = None /\
  TEMP_FILENAME <> ERROR_HTML_FILE /\
  exists w2,
    download_video_file "f1" TEMP_FILENAME [Ok sample_small] sample_world
      = (Returned false, w2, []) /\
    files w2 ERROR_HTML_FILE = Some (utf8_encode "quota") /\
    files w2 TEMP_FILENAME = Some sample_video /\
    log w2 = [EvInvalidContent].
Proof.
  assert (F : final_response "f1" [Ok sample_small] sample_world
              = (Returned (sample_small, true), send (GetDownload "f1") sample_world, []))
    by reflexivity.
  assert (L : header_content_length sample_small = Ok 512) by reflexivity.
  assert (V : contains "html" (lower (header_content_type sample_small)) = true
              \/ 512 < 1000000) by (right; reflexivity).
  assert (T : fault sample_small = None) by reflexivity.
  assert (N : TEMP_FILENAME <> ERROR_HTML_FILE) by discriminate.
  repeat (split; [assumption|]).
  exact (download_rejects_invalid_content "f1" TEMP_FILENAME [Ok sample_small] []
           sample_world _ sample_small true 512 F L V T N).
Defined.

Lemma download_progress_percentages_witness :
  final_response "f1" [Ok sample_media] sample_world
    = (Returned (sample_media, true), send (GetDownload "f1") sample_world, []) /\
  header_content_length sample_media = Ok 1000000 /\
  contains "html" (lower (header_content_type sample_media)) = false /\
  1000000 <= 1000000 < 2 ^ 46 /\
  body_size sample_media < 2 ^ 63 /\
  (exists out w2 closing,
      download_video_file "f1" TEMP_FILENAME [Ok sample_media] sample_world
        = (out, w2, []) /\
      log w2 = [EvProgress 0; closing] /\
      closes_copy closing).
Proof.
  assert (F : final_response "f1" [Ok sample_media] sample_world
              = (Returned (sample_media, true), send (GetDownload "f1") sample_world, []))
    by reflexivity.
  assert (L : header_content_length sample_media = Ok 1000000) by reflexivity.
  assert (H : contains "html" (lower (header_content_type sample_media)) = false)
    by reflexivity.
  assert (C : 1000000 <= 1000000 < 2 ^ 46) by (split; [discriminate | reflexivity]).
  assert (B : body_size sample_media < 2 ^ 63) by reflexivity.
  repeat (split; [assumption|]).
  exact (proj1 (download_progress_percentages "f1" TEMP_FILENAME [Ok sample_media] []
                  sample_world _ sample_media true 1000000 F L H C B)).
Defined.

Lemma download_copies_stream_witness :
  final_response "f1" [Ok sample_media] sample_world
    = (Returned (sample_media, true), send (GetDownload "f1") sample_world, []) /\
  header_content_length sample_media = Ok 1000000 /\
  contains "html" (lower (header_content_type sample_media)) = false /\
  1000000 <= 1000000 /\
  fault sample_media = None /\
  body_size sample_media < 2 ^ 63 /\
  exists w2,
    download_video_file "f1" TEMP_FILENAME [Ok sample_media] sample_world
      = (Returned true, w2, []) /\
    files w2 TEMP_FILENAME = Some [x00; x01; x02] /\
    [x00; x01; x02] = List.concat (body sample_media) /\
    last (log w2) EvInvalidContent = EvDownloadComplete.
Proof.
  assert (F : final_response "f1" [Ok sample_media] sample_world
              = (Returned (sample_media, true), send (GetDownload "f1") sample_world, []))
    by reflexivity.
  assert (L : header_content_length sample_media = Ok 1000000) by reflexivity.
  assert (H : contains "html" (lower (header_content_type sample_media)) = false)
    by reflexivity.
  assert (C : 1000000 <= 1000000) by discriminate.
  assert (T : fault sample_media = None) by reflexivity.
  assert (B : body_size sample_media < 2 ^ 63) by reflexivity.
  repeat (split; [assumption|]).
  exact (download_copies_stream "f1" TEMP_FILENAME [Ok sample_media] []
           sample_world _ sample_media true 1000000 F L H C T B).
Defined.

Lemma download_without_length_is_invalid_witness :
  final_response "f1" [Ok sample_page] sample_world
    = (Returned (sample_page, true), send (GetDownload "f1") sample_world, []) /\
  header_get "content-length" (headers sample_page) = None /\
  TEMP_FILENAME <> ERROR_HTML_FILE /\
  exists out w2,
    download_video_file "f1" TEMP_FILENAME [Ok sample_page] sample_world
      = (out, w2, []) /\
    out <> Returned true /\
    (fault sample_page = None -> out = Returned false) /\
    files w2 TEMP_FILENAME = Some sample_video /\
    log w2 = [EvInvalidContent].
Proof.
  assert (F : final_response "f1" [Ok sample_page] sample_world
              = (Returned (sample_page, true), send (GetDownload "f1") sample_world, []))
    by reflexivity.
  assert (A : header_get "content-length" (headers sample_page) = None) by reflexivity.
  assert (N : TEMP_FILENAME <> ERROR_HTML_FILE) by discriminate.
  repeat (split; [assumption|]).
  exact (proj2 (proj2 (download_without_length_is_invalid "f1" TEMP_FILENAME
                         [Ok sample_page] [] sample_world _ sample_page true F A N))).
Defined.

(** ** Further checks on concrete inputs *)

Example int_truediv_truncates :
  int_truediv 7 2 = Ok 3 /\ int_truediv (-7) 2 = Ok (-3) /\
  int_truediv 7 0 = Raise ZeroDivisionError.
Proof. repeat split. Qed.

Example int_of_str_examples :
  int_of_str " 10485760 " = Ok 10485760 /\ int_of_str "-5" = Ok (-5) /\
  int_of_str "1_000" = Ok 1000 /\ int_of_str "12abc" = Raise ValueError /\
  int_of_str "" = Raise ValueError.
Proof. repeat split. Qed.

Example py_str_examples :
  py_str (JStr "987") = "987" /\ py_str (JInt 987) = "987" /\ py_str JNull = "None" /\
  py_str (JArr [JInt 1; JStr "a"; JBool true]) = "[1, 'a', True]".
Proof. repeat split. Qed.

Example header_lookup_ignores_case :
  header_get "content-length" (headers sample_media) = Some "1000000".
Proof. reflexivity. Qed.

(** With the confirmation form on the first page the Fetcher asks again and
    copies the second response, chunk by chunk as it arrives. *)
Example download_after_confirmation :
  let page :=
    {| headers := [("Content-Type", "text/html")];
       text := "<form id=download-form>";
       form := Some {| confirm_input := Some (Some "t"); uuid_input := Some (Some "u") |};
       body := [];
       fault := None |} in
  let '(out, w2, _) :=
    download_video_file "f1" TEMP_FILENAME [Ok page; Ok sample_media] sample_world in
  out = Returned true /\
  sent w2 = [GetDownload "f1"; GetConfirm "f1" "t" "u"] /\
  files w2 TEMP_FILENAME = Some [x00; x01; x02] /\
  log w2 = [EvProgress 0; EvProgress 0; EvDownloadComplete].
Proof. repeat split. Qed.

(** A transfer that breaks after the first chunk: the failure is reported,
    the Fetcher returns [False], and the chunk already written stays. *)
Example download_broken_transfer :
  let page :=
    {| headers := [("Content-Type", "text/html")];
       text := "<form id=download-form>";
       form := Some {| confirm_input := Some (Some "t"); uuid_input := Some (Some "u") |};
       body := [];
       fault := None |} in
  let media :=
    {| headers := headers sample_media; text := ""; form := None;
       body := [[x00; x01]]; fault := Some RequestException |} in
  let '(out, w2, _) :=
    download_video_file "f1" TEMP_FILENAME [Ok page; Ok media] sample_world in
  out = Returned false /\
  files w2 TEMP_FILENAME = Some [x00; x01] /\
  log w2 = [EvProgress 0; EvDownloadFailed RequestException].
Proof. repeat split. Qed.

(** A range past the end of the file reads nothing: the loop ends by its
    fallback exit and the Uploader finishes without a transfer. *)
Example upload_empty_read_finishes :
  let start :=
    [("upload_session_id", JStr "s1"); ("video_id", JStr "987");
     ("start_offset", JStr "5"); ("end_offset", JStr "9")] in
  upload_to_facebook TEMP_FILENAME "page" "token"
    [ok_object start; Ok sample_finish] sample_world
  = (Returned tt,
     {| files := files sample_world;
        log := [EvUploading 5; EvUploaded "https://www.facebook.com/video.php?v=987"];
        sent := [PostStart "page" "token" 5; PostFinish "page" (JStr "s1") "token"] |},
     []).
Proof. reflexivity. Qed.

(** An exception inside the Uploader is reported as one event. *)
Example upload_reports_exception :
  upload_to_facebook TEMP_FILENAME "page" "token" [Raise RequestException] sample_world
  = (Returned tt,
     {| files := files sample_world;
        log := [EvUploading 5; EvUploadFailed RequestException];
        sent := [PostStart "page" "token" 5] |},
     []).
Proof. reflexivity. Qed.

Example test_token_examples :
  test_token "token" "page" [Ok (JObj [("id", JStr "1")])] sample_world
  = (Returned tt,
     {| files := files sample_world; log := [EvTokenValid];
        sent := [GetPage "page" "token"] |}, []) /\
  test_token "token" "page" [Ok (JObj sample_error)] sample_world
  = (Returned tt,
     {| files := files sample_world; log := [EvTokenInvalid (JObj sample_error)];
        sent := [GetPage "page" "token"] |}, []).
Proof. split; reflexivity. Qed.

(* ================================================================== *)
(** * Further properties of the source *)

(** ** Identifier resolution *)

Local Open Scope string_scope.

Lemma match_d_here_head (c : ascii) (rest tok : string) :
  match_d_here (String c rest) = Some tok -> c = "/"%char.
Proof.
  destruct c as [[] [] [] [] [] [] [] []]; try discriminate. reflexivity.
Qed.

Lemma search_d_raw (s : string) : forallb_str id_char s = true -> search_d s = None.
Proof.
  induction s as [|c s IH]; intros A; [reflexivity|].
  cbn [forallb_str] in A. apply andb_true_iff in A as [Hc A].
  rewrite search_d_unfold.
  destruct (match_d_here (String c s)) as [tok|] eqn:M; [|exact (IH A)].
  apply match_d_here_head in M. subst c. discriminate.
Qed.

Lemma marker_absent_raw (s : string) :
  forallb_str id_char s = true -> contains open_id_marker s = false.
Proof.
  induction s as [|c s IH]; intros A; [reflexivity|].
  rewrite contains_unfold. apply orb_false_iff. split.
  - destruct (prefix open_id_marker (String c s)) eqn:P; [|reflexivity].
    destruct (prefix_inv _ _ P) as [suf E]. rewrite E in A. discriminate.
  - cbn [forallb_str] in A. apply andb_true_iff in A as [_ A]. exact (IH A).
Qed.

Lemma search_d_suffix (pre s : string) :
  search_d (pre ++ s) = None -> search_d s = None.
Proof.
  induction pre as [|c pre IH]; intros H; [exact H|].
  cbn [append] in H. rewrite search_d_unfold in H.
  destruct (match_d_here (String c (pre ++ s))); [discriminate | exact (IH H)].
Qed.

Lemma convert_fixed (s : string) :
  search_d s = None -> contains open_id_marker s = false ->
  convert_drive_link_to_file_id s = s.
Proof. intros S C. unfold convert_drive_link_to_file_id. now rewrite S, C. Qed.

(** X1.  A reference made of identifier characters only (letters, digits,
    underscore, hyphen) is taken as the identifier itself. *)
Theorem convert_raw_identifier_unchanged (s : string) :
  forallb_str id_char s = true -> convert_drive_link_to_file_id s = s.
Proof.
  intros A. apply convert_fixed; [now apply search_d_raw | now apply marker_absent_raw].
Qed.

Lemma convert_raw_identifier_unchanged_witness :
  forallb_str id_char "1AbC-d_9" = true /\
  convert_drive_link_to_file_id "1AbC-d_9" = "1AbC-d_9".
Proof.
  assert (A : forallb_str id_char "1AbC-d_9" = true) by reflexivity.
  split; [exact A | exact (convert_raw_identifier_unchanged "1AbC-d_9" A)].
Defined.

(** X2.  Resolution is idempotent: resolving an identifier that resolution
    produced gives it back. *)
Theorem convert_idempotent (url : string) :
  convert_drive_link_to_file_id (convert_drive_link_to_file_id url)
  = convert_drive_link_to_file_id url.
Proof.
  assert (H : search_d (convert_drive_link_to_file_id url) = None /\
              contains open_id_marker (convert_drive_link_to_file_id url) = false).
  { unfold convert_drive_link_to_file_id.
    destruct (search_d url) as [tok|] eqn:S.
    - destruct (search_d_some _ _ S) as (pre & post & (_ & _ & A & _) & _).
      split; [now apply search_d_raw | now apply marker_absent_raw].
    - destruct (contains open_id_marker url) eqn:C; [|now split].
      assert (Hne : open_id_marker <> "") by discriminate.
      destruct (split_from_last _ Hne _ url "" (le_n _) C) as (pre & E & F).
      split; [|exact F].
      rewrite E in S. apply search_d_suffix in S.
      now apply (search_d_suffix open_id_marker). }
  destruct H as [S C]. now apply convert_fixed.
Qed.

(** X3.  The identifier is always a contiguous piece of the reference:
    resolution cuts, it never rewrites. *)
Theorem convert_is_substring (url : string) :
  exists pre post, url = pre ++ convert_drive_link_to_file_id url ++ post.
Proof.
  unfold convert_drive_link_to_file_id.
  destruct (search_d url) as [tok|] eqn:S.
  - destruct (search_d_some _ _ S) as (pre & post & (E & _) & _).
    exists (pre ++ "/d/"), post. now rewrite append_assoc.
  - destruct (contains open_id_marker url) eqn:C.
    + assert (Hne : open_id_marker <> "") by discriminate.
      destruct (split_from_last _ Hne _ url "" (le_n _) C) as (pre & E & _).
      exists (pre ++ open_id_marker), "".
      now rewrite append_nil_r, append_assoc.
    + exists "", "". now rewrite append_nil_r.
Qed.

(** ** The Uploader, for every script *)

Section UploaderShape.

Local Open Scope list_scope.
Local Open Scope nat_scope.

Lemma extend_nil (w : world) : extend w [] [] = w.
Proof. unfold extend. rewrite !app_nil_r. now destruct w. Qed.

Lemma emit_extend (ev : event) (w : world) : emit ev w = extend w [ev] [].
Proof. unfold emit, extend. now rewrite app_nil_r. Qed.

Lemma send_extend (r : request) (w : world) : send r w = extend w [] [r].
Proof. unfold send, extend. now rewrite app_nil_r. Qed.

Lemma extend_extend (w : world) (a c : list event) (b d : list request) :
  extend (extend w a b) c d = extend w (a ++ c) (b ++ d).
Proof. unfold extend. cbn [files log sent]. now rewrite !app_assoc. Qed.

Variable data : list byte.
Variables page_id access_token : string.
Variable session_id : json.

Lemma read_chunk_slice (start_offset end_offset : json) (chunk : list byte) :
  read_chunk data start_offset end_offset = Ok chunk -> is_slice data chunk.
Proof.
  unfold read_chunk, bind.
  destruct (py_int start_offset) as [s|]; [|discriminate].
  destruct (file_seek s) as [pos|]; [|discriminate].
  destruct (py_int end_offset) as [e|]; [|discriminate].
  unfold file_read.
  destruct (e - s <? -1)%Z; [discriminate|].
  destruct (2 ^ 63 - 1 <=? e - s)%Z; [discriminate|].
  destruct (e - s =? -1)%Z; intros H; injection H as <-.
  - exists (Z.to_nat pos), (List.length (skipn (Z.to_nat pos) data)).
    now rewrite firstn_all.
  - now exists (Z.to_nat pos), (Z.to_nat (e - s)).
Qed.

(** What the transfer loop does to the world, whatever the server answers:
    it logs loop events, sends transfers of non-empty chunks of the session,
    one per reply consumed (and one more when it is left waiting), and
    leaves the files alone. *)
Lemma transfer_loop_shape (server : api_script) :
  forall (start_offset end_offset : json) (w : world),
  exists out evs posts rest,
    transfer_loop data page_id access_token session_id start_offset end_offset
      server w = (out, extend w evs posts, rest) /\
    Forall loop_event evs /\
    Forall (transfer_for data page_id access_token session_id) posts /\
    List.length posts + List.length rest
      = List.length server + (if is_blocked out then 1 else 0) /\
    (is_blocked out = true -> rest = []).
Proof.
  induction server as [|reply server IH]; intros s e w.
  - cbn [transfer_loop].
    destruct (read_chunk data s e) as [chunk|x] eqn:Rd.
    + destruct chunk as [|b chunk]; cbn [is_empty].
      * exists (Returned ByBreak), [], [], []. rewrite extend_nil.
        repeat split; auto; discriminate.
      * exists Blocked, [], [PostTransfer page_id session_id s access_token (b :: chunk)], [].
        rewrite send_extend. repeat split; auto.
        constructor; [|constructor]. eexists _, _. split; [reflexivity|].
        split; [discriminate | exact (read_chunk_slice _ _ _ Rd)].
    + exists (Raised x), [], [], []. rewrite extend_nil. repeat split; auto; discriminate.
  - cbn [transfer_loop].
    destruct (read_chunk data s e) as [chunk|x] eqn:Rd.
    2:{ exists (Raised x), [], [], (reply :: server). rewrite extend_nil.
        repeat split; auto; discriminate. }
    destruct chunk as [|b chunk]; cbn [is_empty].
    { exists (Returned ByBreak), [], [], (reply :: server). rewrite extend_nil.
      repeat split; auto; discriminate. }
    set (p := PostTransfer page_id session_id s access_token (b :: chunk)).
    assert (Tp : Forall (transfer_for data page_id access_token session_id) [p]).
    { constructor; [|constructor]. eexists _, _. split; [reflexivity|].
      split; [discriminate | exact (read_chunk_slice _ _ _ Rd)]. }
    assert (stop : forall (x : exn),
               exists (out : outcome loop_exit) evs posts rest,
                 (Raised x, send p w, server) = (out, extend w evs posts, rest) /\
                 Forall loop_event evs /\
                 Forall (transfer_for data page_id access_token session_id) posts /\
                 List.length posts + List.length rest
                   = List.length (reply :: server) + (if is_blocked out then 1 else 0) /\
                 (is_blocked out = true -> rest = [])).
    { intros x. exists (Raised x), [], [p], server. rewrite send_extend.
      repeat split; auto; try (cbn; lia); discriminate. }
    destruct reply as [res|x]; [|apply stop].
    destruct (py_in "error" res) as [[|]|x]; [| |apply stop].
    + destruct (py_getitem res "error") as [err|x]; [|apply stop].
      exists (Returned ByReturn), [EvTransferError err], [p], server.
      rewrite send_extend, emit_extend, extend_extend.
      split; [reflexivity|]. split.
      { constructor; [|constructor]. right. now exists err. }
      repeat split; auto; try (cbn; lia); discriminate.
    + destruct (dict_get res "start_offset") as [s'|x]; [|apply stop].
      destruct (dict_get res "end_offset") as [e'|x]; [|apply stop].
      destruct (py_eq s' e').
      * exists (Returned ByBreak), [EvChunkUploaded s' e'], [p], server.
        rewrite send_extend, emit_extend, extend_extend.
        split; [reflexivity|]. split.
        { constructor; [|constructor]. left. now exists s', e'. }
        repeat split; auto; try (cbn; lia); discriminate.
      * destruct (IH s' e' (emit (EvChunkUploaded s' e') (send p w)))
          as (out & evs & posts & rest & R & Fe & Fp & Len & Bl).
        exists out, (EvChunkUploaded s' e' :: evs), (p :: posts), rest.
        rewrite R, send_extend, emit_extend, !extend_extend.
        split; [reflexivity|]. split.
        { constructor; [|exact Fe]. left. now exists s', e'. }
        split.
        { constructor; [|exact Fp]. now inversion Tp. }
        split; [cbn [List.length] in *; lia | exact Bl].
Qed.

End UploaderShape.

Section UploadShape.

Local Open Scope list_scope.
Local Open Scope nat_scope.

Lemma loop_events_not_uploaded (evs : list event) :
  Forall loop_event evs -> existsb is_uploaded evs = false.
Proof.
  induction 1 as [|ev evs H _ IH]; [reflexivity|].
  cbn [existsb]. rewrite IH.
  destruct H as [(s & e & ->) | (err & ->)]; reflexivity.
Qed.

Ltac to_extend := rewrite ?send_extend, ?emit_extend, ?extend_extend.

Lemma upload_body_shape (filepath page_id access_token : string)
    (server : api_script) (w : world) :
  exists out evs reqs rest,
    upload_body filepath page_id access_token server w
      = (out, extend w evs reqs, rest) /\
    List.length reqs + List.length rest
      = List.length server + (if is_blocked out then 1 else 0) /\
    (is_blocked out = true -> rest = []) /\
    upload_requests (files w filepath) page_id access_token reqs /\
    (existsb is_uploaded evs = true ->
     out = Returned tt /\ existsb is_finish reqs = true).
Proof.
  unfold upload_body, upload_requests. destruct (files w filepath) as [data|].
  2:{ exists (Raised OSError), [], [], server. rewrite extend_nil.
      repeat split; auto; discriminate. }
  cbv zeta.
  set (file_size := Z.of_nat (List.length data)).
  set (start := PostStart page_id access_token file_size).
  assert (stop : forall (out : outcome unit) (rest : api_script),
             List.length rest + 1 = List.length server + (if is_blocked out then 1 else 0) ->
             (is_blocked out = true -> rest = []) ->
             exists out' evs reqs rest',
               (out, send start (emit (EvUploading file_size) w), rest)
                 = (out', extend w evs reqs, rest') /\
               List.length reqs + List.length rest'
                 = List.length server + (if is_blocked out' then 1 else 0) /\
               (is_blocked out' = true -> rest' = []) /\
               (exists session_id transfers,
                   Forall (transfer_for data page_id access_token session_id) transfers /\
                   (reqs = start :: transfers \/
                    reqs = start :: transfers
                             ++ [PostFinish page_id session_id access_token])) /\
               (existsb is_uploaded evs = true ->
                out' = Returned tt /\ existsb is_finish reqs = true)).
  { intros out rest L B. exists out, [EvUploading file_size], [start], rest.
    to_extend. split; [reflexivity|]. split; [cbn; lia|]. split; [exact B|].
    split; [|discriminate].
    exists JNull, []. split; [constructor | now left]. }
  destruct server as [|[start_res|x] server].
  - apply stop; auto.
  - destruct start_res as [| | | | |fields];
      try (apply stop; [cbn; lia | discriminate]).
    cbn [dict_get bind].
    set (session_id := match assoc "upload_session_id" fields with
                       | Some x => x | None => JNull end).
    set (video_id := match assoc "video_id" fields with
                     | Some x => x | None => JNull end).
    destruct (truthy session_id); cbn [negb].
    2:{ exists (Returned tt), [EvUploading file_size; EvSessionFailed (JObj fields)],
          [start], server.
        to_extend. split; [reflexivity|]. split; [cbn; lia|].
        split; [discriminate|]. split; [|discriminate].
        exists JNull, []. split; [constructor | now left]. }
    match goal with
    | |- context [transfer_loop ?d ?p ?a ?sid ?s ?e ?srv ?w0] =>
        destruct (transfer_loop_shape d p a sid srv s e w0)
          as (out & evs & posts & rest & R & Fe & Fp & Len & Bl); rewrite R
    end.
    pose proof (loop_events_not_uploaded evs Fe) as Nu.
    assert (leave : forall (out' : outcome unit),
               is_blocked out' = is_blocked out ->
               exists out'' evs' reqs rest',
                 (out', extend (send start (emit (EvUploading file_size) w)) evs posts, rest)
                   = (out'', extend w evs' reqs, rest') /\
                 List.length reqs + List.length rest'
                   = S (List.length server) + (if is_blocked out'' then 1 else 0) /\
                 (is_blocked out'' = true -> rest' = []) /\
                 (exists session_id transfers,
                     Forall (transfer_for data page_id access_token session_id) transfers /\
                     (reqs = start :: transfers \/
                      reqs = start :: transfers
                               ++ [PostFinish page_id session_id access_token])) /\
                 (existsb is_uploaded evs' = true ->
                  out'' = Returned tt /\ existsb is_finish reqs = true)).
    { intros out' Hb. exists out', (EvUploading file_size :: evs), (start :: posts), rest.
      to_extend. split; [reflexivity|]. rewrite Hb.
      split; [cbn [List.length] in *; lia|]. split; [exact Bl|].
      split; [exists session_id, posts; split; [exact Fp | now left]|].
      cbn [existsb is_uploaded orb]. rewrite Nu. discriminate. }
    destruct out as [[|]|x|]; try (apply leave; reflexivity).
    unfold finish_upload.
    set (fin := PostFinish page_id session_id access_token).
    assert (shape : exists session_id transfers,
               Forall (transfer_for data page_id access_token session_id) transfers /\
               (start :: posts ++ [fin] = start :: transfers \/
                start :: posts ++ [fin] = start :: transfers
                  ++ [PostFinish page_id session_id access_token])).
    { exists session_id, posts. split; [exact Fp | now right]. }
    cbn [is_blocked] in Len.
    destruct rest as [|[finish_res|x] rest].
    + exists Blocked, (EvUploading file_size :: evs), (start :: posts ++ [fin]), [].
      to_extend. rewrite app_nil_r. split; [reflexivity|].
      split; [cbn [List.length is_blocked] in *; rewrite length_app; cbn; lia|].
      split; [reflexivity|]. split; [exact shape|].
      cbn [existsb is_uploaded orb]. rewrite Nu. discriminate.
    + eexists (Returned tt), (EvUploading file_size :: evs ++ [EvUploaded _]),
        (start :: posts ++ [fin]), rest.
      to_extend. rewrite app_nil_r. split; [reflexivity|].
      split; [cbn [List.length is_blocked] in *; rewrite length_app; cbn; lia|].
      split; [discriminate|]. split; [exact shape|].
      intros _. split; [reflexivity|].
      cbn [existsb is_finish orb]. rewrite existsb_app. cbn. apply orb_true_r.
    + exists (Raised x), (EvUploading file_size :: evs), (start :: posts ++ [fin]), rest.
      to_extend. rewrite app_nil_r. split; [reflexivity|].
      split; [cbn [List.length is_blocked] in *; rewrite length_app; cbn; lia|].
      split; [discriminate|]. split; [exact shape|].
      cbn [existsb is_uploaded orb]. rewrite Nu. discriminate.
  - apply stop; [cbn; lia | discriminate].
Qed.

Lemma extend_inj (w : world) (evs evs' : list event) (reqs reqs' : list request) :
  extend w evs reqs = extend w evs' reqs' -> evs = evs' /\ reqs = reqs'.
Proof.
  unfold extend. intros H. injection H as H1 H2.
  split; [exact (app_inv_head _ _ _ H1) | exact (app_inv_head _ _ _ H2)].
Qed.

End UploadShape.

Section UploadProperties.

Local Open Scope list_scope.
Local Open Scope nat_scope.

Variables filepath page_id access_token : string.
Variable server : api_script.
Variable w : world.

Lemma upload_shape :
  exists out evs reqs rest,
    upload_to_facebook filepath page_id access_token server w
      = (out, extend w evs reqs, rest) /\
    (out = Returned tt \/ (out = Blocked /\ rest = [])) /\
    List.length reqs + List.length rest
      = List.length server + (if is_blocked out then 1 else 0) /\
    upload_requests (files w filepath) page_id access_token reqs /\
    (existsb is_uploaded evs = true -> existsb is_finish reqs = true).
Proof.
  unfold upload_to_facebook.
  destruct (upload_body_shape filepath page_id access_token server w)
    as (out & evs & reqs & rest & R & Len & Bl & Sh & Up).
  rewrite R. destruct out as [[]|x|].
  - exists (Returned tt), evs, reqs, rest. repeat split; auto. now apply Up.
  - exists (Returned tt), (evs ++ [EvUploadFailed x]), reqs, rest.
    rewrite emit_extend, extend_extend, app_nil_r.
    split; [reflexivity|]. split; [now left|]. split; [exact Len|].
    split; [exact Sh|]. rewrite existsb_app. cbn. rewrite orb_false_r.
    intros U. destruct (Up U) as [D _]. discriminate.
  - exists Blocked, evs, reqs, rest. split; [reflexivity|].
    split; [right; split; [reflexivity | now apply Bl]|].
    split; [exact Len|]. split; [exact Sh|]. intros U. now apply Up.
Qed.

(** X4.  Whatever the server answers, the Uploader leaves every file as it
    was and only adds to the log and to the requests.  Without the input
    file it sends nothing; with it, it sends the Start request carrying the
    size of the file, then transfers that each carry a non-empty run of
    consecutive bytes of the file under one session token, and last, if at
    all, the Finish request with that token. *)
Theorem upload_keeps_phase_order :
  exists evs reqs,
    snd (fst (upload_to_facebook filepath page_id access_token server w))
      = extend w evs reqs /\
    upload_requests (files w filepath) page_id access_token reqs.
Proof.
  destruct upload_shape as (out & evs & reqs & rest & R & _ & _ & Sh & _).
  exists evs, reqs. now rewrite R.
Qed.

(** X5.  No exception leaves the Uploader: it returns, or it waits for an
    answer that the server never gives, having used up the replies. *)
Theorem upload_returns_or_waits :
  let r := upload_to_facebook filepath page_id access_token server w in
  fst (fst r) = Returned tt \/ (fst (fst r) = Blocked /\ snd r = []).
Proof.
  destruct upload_shape as (out & evs & reqs & rest & R & O & _).
  cbv zeta. now rewrite R.
Qed.

(** X6.  The Uploader is sequential: each request is made once the reply to
    the one before is in, so the requests it sends are as many as the replies
    it consumes, plus the one left unanswered when it waits. *)
Theorem upload_one_request_per_reply :
  let r := upload_to_facebook filepath page_id access_token server w in
  List.length (sent (snd (fst r))) + List.length (snd r)
  = List.length (sent w) + List.length server
    + (if is_blocked (fst (fst r)) then 1 else 0).
Proof.
  destruct upload_shape as (out & evs & reqs & rest & R & _ & Len & _).
  cbv zeta. rewrite R. cbn [fst snd extend sent]. rewrite length_app. lia.
Qed.

(** X7.  Success is reported only after the Finish request: if the events a
    run adds to the log include an [Uploaded] event, the requests it adds
    include the Finish request. *)
Theorem upload_success_needs_finish (evs : list event) (reqs : list request) :
  snd (fst (upload_to_facebook filepath page_id access_token server w))
    = extend w evs reqs ->
  existsb is_uploaded evs = true ->
  existsb is_finish reqs = true.
Proof.
  destruct upload_shape as (out & evs0 & reqs0 & rest & R & _ & _ & _ & Up).
  rewrite R. cbn [fst snd]. intros E U.
  apply extend_inj in E as [<- <-]. now apply Up.
Qed.

(** X8.  An empty input file is never transferred: the requests a run adds
    include no transfer request, whatever the server answers. *)
Theorem upload_empty_file_sends_no_chunk (evs : list event) (reqs : list request) :
  files w filepath = Some [] ->
  snd (fst (upload_to_facebook filepath page_id access_token server w))
    = extend w evs reqs ->
  existsb is_transfer reqs = false.
Proof.
  intros F.
  destruct upload_shape as (out & evs0 & reqs0 & rest & R & _ & _ & Sh & _).
  rewrite R, F in *. cbn [fst snd]. intros E. apply extend_inj in E as [<- <-].
  destruct Sh as (sid & transfers & Ft & Sh).
  assert (T : transfers = []).
  { destruct Ft as [|r l (s & chunk & _ & Ne & (pos & n & Sl)) _]; [reflexivity|].
    rewrite skipn_nil, firstn_nil in Sl. contradiction. }
  subst transfers. destruct Sh as [-> | ->]; reflexivity.
Qed.

End UploadProperties.

Lemma upload_success_needs_finish_witness :
  snd (fst (upload_to_facebook TEMP_FILENAME "page" "token"
              [ok_object sample_start; ok_object sample_bare; Ok sample_finish]
              sample_world))
    = extend sample_world
        [EvUploading 5; EvChunkUploaded JNull JNull;
         EvUploaded "https://www.facebook.com/video.php?v=987"]
        [PostStart "page" "token" 5;
         PostTransfer "page" (JStr "s1") (JStr "0") "token" [x00; x01; x02];
         PostFinish "page" (JStr "s1") "token"] /\
  existsb is_uploaded
    [EvUploading 5; EvChunkUploaded JNull JNull;
     EvUploaded "https://www.facebook.com/video.php?v=987"] = true /\
  existsb is_finish
    [PostStart "page" "token" 5;
     PostTransfer "page" (JStr "s1") (JStr "0") "token" [x00; x01; x02];
     PostFinish "page" (JStr "s1") "token"] = true.
Proof.
  split; [reflexivity|]. split; [reflexivity|].
  exact (upload_success_needs_finish TEMP_FILENAME "page" "token"
           [ok_object sample_start; ok_object sample_bare; Ok sample_finish]
           sample_world _ _ eq_refl eq_refl).
Defined.

Lemma upload_empty_file_sends_no_chunk_witness :
  files empty_world TEMP_FILENAME = Some [] /\
  snd (fst (upload_to_facebook TEMP_FILENAME "page" "token"
              [ok_object sample_start; Ok sample_finish] empty_world))
    = extend empty_world
        [EvUploading 0; EvUploaded "https://www.facebook.com/video.php?v=987"]
        [PostStart "page" "token" 0; PostFinish "page" (JStr "s1") "token"] /\
  existsb is_transfer
    [PostStart "page" "token" 0; PostFinish "page" (JStr "s1") "token"] = false.
Proof.
  split; [reflexivity|]. split; [reflexivity|].
  exact (upload_empty_file_sends_no_chunk TEMP_FILENAME "page" "token"
           [ok_object sample_start; Ok sample_finish] empty_world _ _ eq_refl eq_refl).
Defined.

Section UploaderFailures.

Local Open Scope list_scope.

Variables filepath page_id access_token : string.
Variable data : list byte.
Variable start : list (string * json).

Local Abbreviation session_id := (field "upload_session_id" start).
Local Abbreviation post := (post_at data page_id access_token session_id).

Lemma transfer_loop_raise (c : cursor) (x : exn) (server : api_script) (w : world) :
  readable data c ->
  transfer_loop data page_id access_token session_id (fst c) (snd c)
    (Raise x :: server) w
  = (Raised x, send (post c) w, server).
Proof.
  intros R. destruct (readable_chunk data c R) as [Rc Ne].
  simpl transfer_loop. now rewrite Rc, Ne.
Qed.

Lemma transfer_loop_reply (c : cursor) (res : json) (server : api_script)
    (w : world) :
  readable data c ->
  transfer_loop data page_id access_token session_id (fst c) (snd c)
    (Ok res :: server) w
  = let w1 := send (post c) w in
    match py_in "error" res with
    | Raise e => (Raised e, w1, server)
    | Ok true =>
        match py_getitem res "error" with
        | Raise e => (Raised e, w1, server)
        | Ok err => (Returned ByReturn, emit (EvTransferError err) w1, server)
        end
    | Ok false =>
        match dict_get res "start_offset" with
        | Raise e => (Raised e, w1, server)
        | Ok start_offset' =>
            match dict_get res "end_offset" with
            | Raise e => (Raised e, w1, server)
            | Ok end_offset' =>
                let w2 := emit (EvChunkUploaded start_offset' end_offset') w1 in
                if py_eq start_offset' end_offset'
                then (Returned ByBreak, w2, server)
                else transfer_loop data page_id access_token session_id
                       start_offset' end_offset' server w2
            end
        end
    end.
Proof.
  intros R. destruct (readable_chunk data c R) as [Rc Ne].
  cbn [transfer_loop]. now rewrite Rc, Ne.
Qed.

Lemma transfer_loop_malformed (c : cursor) (v : json) (server : api_script) :
  readable data c -> is_object v = false ->
  exists x,
    (x = TypeError \/ x = AttributeError) /\
    forall w,
      transfer_loop data page_id access_token session_id (fst c) (snd c)
        (Ok v :: server) w
      = (Raised x, send (post c) w, server).
Proof.
  intros R O.
  destruct v as [| | |s|l|m]; try discriminate.
  1-3: exists TypeError; split; [now left|]; intros w;
       now rewrite (transfer_loop_reply c _ server w R).
  - destruct (contains "error" s) eqn:C;
      [exists TypeError; split; [now left|] | exists AttributeError; split; [now right|]];
      intros w; rewrite (transfer_loop_reply c _ server w R);
      unfold py_in; now rewrite C.
  - destruct (existsb (py_eq (JStr "error")) l) eqn:C;
      [exists TypeError; split; [now left|] | exists AttributeError; split; [now right|]];
      intros w; rewrite (transfer_loop_reply c _ server w R);
      unfold py_in; now rewrite C.
Qed.

(** A run that keeps the loop going and then meets an exception in the
    loop: the exception is reported and nothing more is sent. *)
Lemma upload_run_fails (mid : list (list (string * json))) (tail rest : api_script)
    (x : exn) (w : world) :
  files w filepath = Some data ->
  truthy session_id = true ->
  going data (cursor_of start) mid ->
  (forall w0,
      transfer_loop data page_id access_token session_id
        (fst (end_cursor (cursor_of start) mid))
        (snd (end_cursor (cursor_of start) mid)) tail w0
      = (Raised x, send (post (end_cursor (cursor_of start) mid)) w0, rest)) ->
  upload_to_facebook filepath page_id access_token
    (ok_object start :: map ok_object mid ++ tail) w
  = (Returned tt,
     extend w
       (EvUploading (Z.of_nat (List.length data))
          :: map chunk_event mid ++ [EvUploadFailed x])
       (PostStart page_id access_token (Z.of_nat (List.length data))
          :: map post (cursor_of start :: map cursor_of mid)),
     rest).
Proof.
  intros F T G L. unfold upload_to_facebook.
  rewrite (upload_body_going filepath page_id access_token data start mid _ w F T G).
  rewrite L. unfold after_transfers, emit, send, extend. cbn [files log sent].
  do 2 f_equal. apply world_eq.
  - now rewrite <- !app_assoc.
  - rewrite <- (posts_upto_end page_id access_token data start).
    now rewrite <- !app_assoc.
Qed.

End UploaderFailures.

(** X9.  A session token that is there but empty ([null], [""], [0],
    [false], an empty list or object) counts as missing: the Uploader
    reports the Start response and sends nothing more. *)
Theorem upload_rejects_empty_session
    (filepath page_id access_token : string) (data : list byte)
    (start : list (string * json)) (rest : api_script) (w : world) :
  files w filepath = Some data ->
  truthy (field "upload_session_id" start) = false ->
  upload_to_facebook filepath page_id access_token (ok_object start :: rest) w
  = (Returned tt,
     extend w
       [EvUploading (Z.of_nat (List.length data)); EvSessionFailed (JObj start)]
       [PostStart page_id access_token (Z.of_nat (List.length data))],
     rest).
Proof.
  intros F T. unfold upload_to_facebook, upload_body, ok_object.
  rewrite F. cbn [dict_get bind]. fold (field "upload_session_id" start).
  rewrite T. cbn [negb]. unfold emit, send, extend. cbn [files log sent].
  now rewrite <- app_assoc.
Qed.

Lemma upload_rejects_empty_session_witness :
  files sample_world TEMP_FILENAME = Some sample_video /\
  truthy (field "upload_session_id" [("upload_session_id", JStr "")]) = false /\
  upload_to_facebook TEMP_FILENAME "page" "token"
    [ok_object [("upload_session_id", JStr "")]; Ok sample_finish] sample_world
  = (Returned tt,
     extend sample_world
       [EvUploading 5; EvSessionFailed (JObj [("upload_session_id", JStr "")])]
       [PostStart "page" "token" 5],
     [Ok sample_finish]).
Proof.
  split; [reflexivity|]. split; [reflexivity|].
  exact (upload_rejects_empty_session TEMP_FILENAME "page" "token" sample_video
           [("upload_session_id", JStr "")] [Ok sample_finish] sample_world
           eq_refl eq_refl).
Defined.

(** X10.  A transfer request that raises (a connection lost, a body that is
    not JSON) ends the upload: the exception is reported as one event, the
    transfer is not tried again, no Finish request is sent, and the replies
    that follow are not consumed. *)
Theorem upload_stops_on_transfer_exception
    (filepath page_id access_token : string) (data : list byte)
    (start : list (string * json)) (mid : list (list (string * json)))
    (x : exn) (rest : api_script) (w : world) :
  files w filepath = Some data ->
  truthy (field "upload_session_id" start) = true ->
  going data (cursor_of start) mid ->
  readable data (end_cursor (cursor_of start) mid) ->
  upload_to_facebook filepath page_id access_token
    (ok_object start :: map ok_object mid ++ Raise x :: rest)%list w
  = (Returned tt,
     extend w
       (EvUploading (Z.of_nat (List.length data))
          :: map chunk_event mid ++ [EvUploadFailed x])%list
       (PostStart page_id access_token (Z.of_nat (List.length data))
          :: map (post_at data page_id access_token (field "upload_session_id" start))
                 (cursor_of start :: map cursor_of mid)),
     rest).
Proof.
  intros F T G R.
  apply (upload_run_fails filepath page_id access_token data start mid
           (Raise x :: rest) rest x w F T G).
  intros w0. now apply transfer_loop_raise.
Qed.

Lemma upload_stops_on_transfer_exception_witness :
  files sample_world TEMP_FILENAME = Some sample_video /\
  truthy (field "upload_session_id" sample_start) = true /\
  going sample_video (cursor_of sample_start) [sample_next] /\
  readable sample_video (end_cursor (cursor_of sample_start) [sample_next]) /\
  upload_to_facebook TEMP_FILENAME "page" "token"
    [ok_object sample_start; ok_object sample_next; Raise RequestException;
     Ok sample_finish] sample_world
  = (Returned tt,
     extend sample_world
       [EvUploading 5; EvChunkUploaded (JStr "3") (JStr "5");
        EvUploadFailed RequestException]
       [PostStart "page" "token" 5;
        PostTransfer "page" (JStr "s1") (JStr "0") "token" [x00; x01; x02];
        PostTransfer "page" (JStr "s1") (JStr "3") "token" [x03; x04]],
     [Ok sample_finish]).
Proof.
  assert (F : files sample_world TEMP_FILENAME = Some sample_video) by reflexivity.
  assert (T : truthy (field "upload_session_id" sample_start) = true) by reflexivity.
  assert (G : going sample_video (cursor_of sample_start) [sample_next]).
  { split; [solve_readable|]. repeat split. }
  assert (R : readable sample_video (end_cursor (cursor_of sample_start) [sample_next]))
    by solve_readable.
  repeat (split; [assumption|]).
  exact (upload_stops_on_transfer_exception TEMP_FILENAME "page" "token" sample_video
           sample_start [sample_next] RequestException [Ok sample_finish]
           sample_world F T G R).
Defined.

(** X11.  A transfer response that is valid JSON but not an object ([null],
    a number, a string, a list) ends the upload in the same way: the
    [TypeError] or [AttributeError] of the lookups is reported, and no Finish
    request is sent. *)
Theorem upload_stops_on_malformed_response
    (filepath page_id access_token : string) (data : list byte)
    (start : list (string * json)) (mid : list (list (string * json)))
    (v : json) (rest : api_script) (w : world) :
  files w filepath = Some data ->
  truthy (field "upload_session_id" start) = true ->
  going data (cursor_of start) mid ->
  readable data (end_cursor (cursor_of start) mid) ->
  is_object v = false ->
  exists x,
    (x = TypeError \/ x = AttributeError) /\
    upload_to_facebook filepath page_id access_token
      (ok_object start :: map ok_object mid ++ Ok v :: rest)%list w
    = (Returned tt,
       extend w
         (EvUploading (Z.of_nat (List.length data))
            :: map chunk_event mid ++ [EvUploadFailed x])%list
         (PostStart page_id access_token (Z.of_nat (List.length data))
            :: map (post_at data page_id access_token (field "upload_session_id" start))
                   (cursor_of start :: map cursor_of mid)),
       rest).
Proof.
  intros F T G R O.
  destruct (transfer_loop_malformed page_id access_token data start _ v rest R O)
    as (x & Hx & L).
  exists x. split; [exact Hx|].
  exact (upload_run_fails filepath page_id access_token data start mid
           (Ok v :: rest) rest x w F T G L).
Qed.

Lemma upload_stops_on_malformed_response_witness :
  files sample_world TEMP_FILENAME = Some sample_video /\
  truthy (field "upload_session_id" sample_start) = true /\
  going sample_video (cursor_of sample_start) [] /\
  readable sample_video (end_cursor (cursor_of sample_start) []) /\
  is_object (JArr []) = false /\
  exists x,
    (x = TypeError \/ x = AttributeError) /\
    upload_to_facebook TEMP_FILENAME "page" "token"
      [ok_object sample_start; Ok (JArr []); Ok sample_finish] sample_world
    = (Returned tt,
       extend sample_world
         [EvUploading 5; EvUploadFailed x]
         [PostStart "page" "token" 5;
          PostTransfer "page" (JStr "s1") (JStr "0") "token" [x00; x01; x02]],
       [Ok sample_finish]).
Proof.
  assert (F : files sample_world TEMP_FILENAME = Some sample_video) by reflexivity.
  assert (T : truthy (field "upload_session_id" sample_start) = true) by reflexivity.
  assert (G : going sample_video (cursor_of sample_start) []) by exact I.
  assert (R : readable sample_video (end_cursor (cursor_of sample_start) []))
    by solve_readable.
  assert (O : is_object (JArr []) = false) by reflexivity.
  repeat (split; [assumption|]).
  exact (upload_stops_on_malformed_response TEMP_FILENAME "page" "token" sample_video
           sample_start [] (JArr []) [Ok sample_finish] sample_world F T G R O).
Defined.

(** ** The Fetcher, for every script *)

Section FetcherShape.

Local Open Scope list_scope.
Local Open Scope Z_scope.

Lemma int_truediv_nonneg (n d v : Z) :
  0 <= n -> 0 < d -> int_truediv n d = Ok v -> 0 <= v.
Proof.
  intros Hn Hd. unfold int_truediv.
  destruct (Z.eqb_spec d 0) as [|_]; [lia|].
  destruct (Z.eqb_spec n 0) as [|N0]; [intros H; injection H as <-; lia|].
  rewrite (Z.abs_eq n), (Z.abs_eq d), (Z.sgn_pos n), (Z.sgn_pos d) by lia.
  pose proof (nearest_double_mantissa n d) as M. cbv zeta in M.
  destruct (nearest_double n d) as [m e]. cbn [fst snd] in M.
  destruct (Z.leb_spec 0 e) as [He|He].
  - assert (P : 0 < 2 ^ e) by (apply Z.pow_pos_nonneg; lia).
    pose proof (round_half_even_bounds n (d * 2 ^ e)) as [B _]. rewrite <- M in B.
    assert (0 <= n / (d * 2 ^ e)) by (apply Z.div_pos; nia).
    destruct (2 ^ 1024 <=? m * 2 ^ e); [discriminate|].
    intros K; injection K as <-.
    assert (0 <= m * 2 ^ e) by (apply Z.mul_nonneg_nonneg; lia).
    destruct (m * 2 ^ e); lia.
  - assert (P : 0 < 2 ^ (- e)) by (apply Z.pow_pos_nonneg; lia).
    pose proof (round_half_even_bounds (n * 2 ^ (- e)) d) as [B _]. rewrite <- M in B.
    assert (0 <= n * 2 ^ (- e) / d) by (apply Z.div_pos; nia).
    intros K; injection K as <-.
    assert (0 <= m / 2 ^ (- e)) by (apply Z.div_pos; lia).
    destruct (m / 2 ^ (- e)); lia.
Qed.

Lemma progress_percent_range (content_length t p : Z) :
  0 < content_length -> 0 <= t ->
  progress_percent content_length t = Ok p -> 0 <= p <= 100.
Proof.
  intros Hc Ht. unfold progress_percent.
  destruct (int_truediv (t * 100) content_length) as [q|] eqn:E; [|discriminate].
  cbn [bind]. intros H.
  assert (Hp : p = Z.min 100 q) by congruence.
  assert (Hn : 0 <= t * 100) by lia.
  pose proof (int_truediv_nonneg _ _ _ Hn Hc E). lia.
Qed.

Lemma concat_firstn_prefix (chunks : list (list byte)) (k : nat) :
  List.concat chunks
  = List.concat (firstn k chunks) ++ List.concat (skipn k chunks).
Proof. now rewrite <- concat_app, firstn_skipn. Qed.

(** The copy loop in general: it writes the chunks in order, up to the one
    at which the percentage cannot be computed, and touches nothing but the
    destination and the log. *)
Lemma write_chunks_shape (dest : string) (content_length : Z)
    (chunks : list (list byte)) :
  0 < content_length ->
  forall (d : Z) (w : world) (old : list byte),
    0 <= d ->
    files w dest = Some old ->
    exists r w' k ps,
      write_chunks dest content_length chunks d w = (r, w') /\
      files w' dest = Some (old ++ List.concat (firstn k chunks)) /\
      (r = Ok tt -> firstn k chunks = chunks) /\
      (forall p, p <> dest -> files w' p = files w p) /\
      sent w' = sent w /\
      log w' = log w ++ map EvProgress ps /\
      Forall (fun p => 0 <= p <= 100) ps.
Proof.
  intros Hc. induction chunks as [|c chunks IH]; intros d w old Hd F.
  - exists (Ok tt), w, 0%nat, []. cbn. rewrite !app_nil_r. repeat split; auto.
  - cbn [write_chunks].
    destruct c as [|b c]; cbn [is_empty].
    + destruct (IH d w old Hd F) as (r & w' & k & ps & R & A & B & C & D & E & G).
      exists r, w', (S k), ps. cbn [firstn List.concat app].
      repeat split; auto. intros H. now rewrite (B H).
    + destruct (Z.eqb_spec content_length 0) as [|_]; [lia|].
      set (d' := d + Z.of_nat (List.length (b :: c))).
      destruct (files_append_file dest (b :: c) w old F) as [F1 F2].
      destruct (progress_percent content_length d') as [p|x] eqn:P.
      * destruct (IH d' (emit (EvProgress p) (append_file dest (b :: c) w))
                    (old ++ b :: c) ltac:(lia) F1)
          as (r & w' & k & ps & R & A & B & C & D & E & G).
        exists r, w', (S k), (p :: ps). rewrite R. cbn [firstn List.concat].
        split; [reflexivity|]. split; [now rewrite A, <- app_assoc|].
        split; [intros H; now rewrite (B H)|].
        split; [intros q N; rewrite (C q N); cbn [emit files]; exact (F2 q N)|].
        split; [now rewrite D|].
        split; [rewrite E; cbn [emit log map]; now rewrite <- app_assoc|].
        constructor; [|exact G].
        apply (progress_percent_range content_length d'); [exact Hc | lia | exact P].
      * exists (Raise x), (append_file dest (b :: c) w), 1%nat, [].
        cbn [firstn List.concat map]. rewrite !app_nil_r.
        split; [reflexivity|]. split; [exact F1|].
        split; [discriminate|]. split; [exact F2|].
        repeat split; auto.
Qed.

End FetcherShape.

Section FetcherProperties.

Local Open Scope list_scope.
Local Open Scope Z_scope.

Variables file_id dest : string.

Lemma final_response_shape (server : download_script) (w : world) :
  exists out reqs rest,
    final_response file_id server w = (out, extend w [] reqs, rest) /\
    (reqs = [GetDownload file_id] \/
     exists t u, t <> ""%string /\ u <> ""%string /\
                 reqs = [GetDownload file_id; GetConfirm file_id t u]).
Proof.
  unfold final_response. rewrite send_extend.
  destruct server as [|[r|e] server].
  - exists Blocked, [GetDownload file_id], []. split; [reflexivity | now left].
  - destruct (get_confirm_info_from_form r) as [[t u]|e].
    + destruct (truthy_str t && truthy_str u) eqn:T.
      * apply andb_true_iff in T as [Tt Tu].
        destruct t as [t|]; [|discriminate]. destruct u as [u|]; [|discriminate].
        cbn [truthy_str] in Tt, Tu.
        apply negb_true_iff, String.eqb_neq in Tt.
        apply negb_true_iff, String.eqb_neq in Tu.
        rewrite send_extend, extend_extend. cbn [app].
        assert (S : [GetDownload file_id; GetConfirm file_id t u] = [GetDownload file_id] \/
                    exists t0 u0, t0 <> ""%string /\ u0 <> ""%string /\
                      [GetDownload file_id; GetConfirm file_id t u]
                      = [GetDownload file_id; GetConfirm file_id t0 u0])
          by (right; now exists t, u).
        destruct server as [|[r'|e'] server]; eexists _, _, _; split; try reflexivity; exact S.
      * eexists _, _, _. split; [reflexivity | now left].
    + eexists _, _, _. split; [reflexivity | now left].
  - eexists _, _, _. split; [reflexivity | now left].
Qed.

Lemma invalid_content_false_inv (content_type : string) (content_length : Z) :
  invalid_content content_type content_length = false ->
  contains "html" (lower content_type) = false /\ 1000000 <= content_length.
Proof.
  unfold invalid_content. intros H. apply orb_false_iff in H as [H1 H2].
  split; [exact H1 | now apply Z.ltb_ge].
Qed.

(** The copy of a response classified valid, in general. *)
Lemma save_response_valid_shape (resp : response) (consumed : bool) (w : world)
    (content_length : Z) :
  header_content_length resp = Ok content_length ->
  invalid_content (header_content_type resp) content_length = false ->
  let chunks := fst (iter_content resp consumed) in
  exists b w' k ps closing,
    save_response resp consumed dest w = (Returned b, w') /\
    files w' dest = Some (List.concat (firstn k chunks)) /\
    (b = true -> firstn k chunks = chunks /\ closing = EvDownloadComplete) /\
    (b = false -> exists x, closing = EvDownloadFailed x) /\
    (forall p, p <> dest -> files w' p = files w p) /\
    sent w' = sent w /\
    log w' = log w ++ map EvProgress ps ++ [closing] /\
    Forall (fun p => 0 <= p <= 100) ps.
Proof.
  intros L V chunks. unfold save_response. rewrite L, V.
  destruct (invalid_content_false_inv _ _ V) as [_ Hc].
  subst chunks. destruct (iter_content resp consumed) as [chunks broken].
  cbn [fst].
  destruct (write_chunks_shape dest content_length chunks ltac:(lia) 0
              (store dest [] w) [] ltac:(lia) (files_store_same dest [] w))
    as (r & w' & k & ps & R & A & B & C & D & E & G).
  rewrite R. cbn [app] in A.
  assert (C' : forall p, p <> dest -> files w' p = files w p).
  { intros p N. rewrite (C p N). now apply files_store_other. }
  destruct r as [[]|x].
  - destruct broken as [x|].
    + exists false, (emit (EvDownloadFailed x) w'), k, ps, (EvDownloadFailed x).
      cbn [emit files log sent]. rewrite E, <- app_assoc.
      repeat split; auto; try discriminate. now exists x.
    + exists true, (emit EvDownloadComplete w'), k, ps, EvDownloadComplete.
      cbn [emit files log sent]. rewrite E, <- app_assoc.
      repeat split; auto; try discriminate.
  - exists false, (emit (EvDownloadFailed x) w'), k, ps, (EvDownloadFailed x).
    cbn [emit files log sent]. rewrite E, <- app_assoc.
    repeat split; auto; try discriminate. now exists x.
Qed.

(** What saving a response can touch, in general. *)
Lemma save_response_frame (resp : response) (consumed : bool) (w : world) :
  sent (snd (save_response resp consumed dest w)) = sent w /\
  forall p, p <> dest -> p <> ERROR_HTML_FILE ->
            files (snd (save_response resp consumed dest w)) p = files w p.
Proof.
  destruct (header_content_length resp) as [cl|x] eqn:L.
  2:{ unfold save_response. rewrite L. now split. }
  destruct (invalid_content (header_content_type resp) cl) eqn:V.
  - unfold save_response. rewrite L, V.
    destruct (if consumed then Ok (text resp) else read_text resp) as [t|x];
      cbn [snd]; (split; [reflexivity|]); intros p N1 N2;
      now rewrite ?files_store_other by exact N2.
  - destruct (save_response_valid_shape resp consumed w cl L V)
      as (b & w' & k & ps & closing & R & _ & _ & _ & C & D & _).
    rewrite R. cbn [snd]. split; [exact D|]. intros p N1 _. now apply C.
Qed.

End FetcherProperties.

(** X12.  The Fetcher writes to two paths only, the destination and the
    diagnostic file: every other file is as it was, whatever the servers
    answer. *)
Theorem download_touches_two_files
    (file_id dest : string) (server : download_script) (w : world) (p : string) :
  p <> dest -> p <> ERROR_HTML_FILE ->
  files (snd (fst (download_video_file file_id dest server w))) p = files w p.
Proof.
  intros N1 N2. unfold download_video_file.
  destruct (final_response_shape file_id server w) as (out & reqs & rest & R & _).
  rewrite R. destruct out as [[resp consumed]|x|]; try reflexivity.
  destruct (save_response_frame dest resp consumed (extend w [] reqs)) as [_ K].
  specialize (K p N1 N2).
  destruct (save_response resp consumed dest (extend w [] reqs)) as [r w2].
  exact K.
Qed.

Lemma download_touches_two_files_witness :
  "notes.txt"%string <> TEMP_FILENAME /\ "notes.txt"%string <> ERROR_HTML_FILE /\
  files (snd (fst (download_video_file "f1" TEMP_FILENAME [Ok sample_page] sample_world)))
    "notes.txt"
  = files sample_world "notes.txt".
Proof.
  assert (N1 : "notes.txt"%string <> TEMP_FILENAME) by discriminate.
  assert (N2 : "notes.txt"%string <> ERROR_HTML_FILE) by discriminate.
  repeat (split; [assumption|]).
  exact (download_touches_two_files "f1" TEMP_FILENAME [Ok sample_page] sample_world
           "notes.txt" N1 N2).
Defined.

Lemma download_requests_shape
    (file_id dest : string) (server : download_script) (w : world) :
  exists reqs,
    sent (snd (fst (download_video_file file_id dest server w)))
      = (sent w ++ reqs)%list /\
    (reqs = [GetDownload file_id] \/
     exists t u, t <> ""%string /\ u <> ""%string /\
                 reqs = [GetDownload file_id; GetConfirm file_id t u]).
Proof.
  unfold download_video_file.
  destruct (final_response_shape file_id server w) as (out & reqs & rest & R & S).
  rewrite R. exists reqs. split; [|exact S].
  destruct out as [[resp consumed]|x|]; try reflexivity.
  destruct (save_response_frame dest resp consumed (extend w [] reqs)) as [K _].
  destruct (save_response resp consumed dest (extend w [] reqs)) as [r w2].
  exact K.
Qed.

Lemma download_posts_nothing
    (file_id dest : string) (server : download_script) (w : world) :
  existsb is_post (sent (snd (fst (download_video_file file_id dest server w))))
  = existsb is_post (sent w).
Proof.
  destruct (download_requests_shape file_id dest server w) as (reqs & S & G).
  rewrite S, existsb_app.
  destruct G as [-> | (t & u & _ & _ & ->)]; cbn; apply orb_false_r.
Qed.

(** X13.  The Fetcher makes one request, or two: the download request for
    the identifier, and after it at most the confirmation request, which
    carries a non-empty token and a non-empty uuid.  It never posts. *)
Theorem download_makes_one_or_two_requests
    (file_id dest : string) (server : download_script) (w : world) :
  exists reqs,
    sent (snd (fst (download_video_file file_id dest server w)))
      = (sent w ++ reqs)%list /\
    (reqs = [GetDownload file_id] \/
     exists t u, t <> ""%string /\ u <> ""%string /\
                 reqs = [GetDownload file_id; GetConfirm file_id t u]).
Proof. exact (download_requests_shape file_id dest server w). Qed.

(** What a result of [True] tells. *)
Lemma download_true_inv
    (file_id dest : string) (server rest : download_script) (w w1 : world)
    (resp : response) (consumed : bool) :
  final_response file_id server w = (Returned (resp, consumed), w1, rest) ->
  fst (fst (download_video_file file_id dest server w)) = Returned true ->
  let w2 := snd (fst (download_video_file file_id dest server w)) in
  files w2 dest = Some (List.concat (body resp)) /\
  last (log w2) EvInvalidContent = EvDownloadComplete /\
  exists content_length,
    header_content_length resp = Ok content_length /\
    1000000 <= content_length /\
    contains "html" (lower (header_content_type resp)) = false.
Proof.
  intros F. rewrite (download_from_final file_id dest _ _ _ _ _ _ F). cbn [fst snd].
  destruct (header_content_length resp) as [cl|x] eqn:L.
  2:{ unfold save_response. rewrite L. discriminate. }
  destruct (invalid_content (header_content_type resp) cl) eqn:V.
  { destruct (save_response_invalid dest resp consumed w1 cl L V)
      as (out & w2 & S & NT & _). rewrite S. cbn [fst]. intros T. now elim NT. }
  destruct (save_response_valid_shape dest resp consumed w1 cl L V)
    as (b & w' & k & ps & closing & R & A & B & _ & _ & _ & E & _).
  rewrite R. cbn [fst snd]. intros T. injection T as ->.
  destruct (B eq_refl) as [K ->]. cbv zeta in K. rewrite K in A.
  rewrite (iter_content_concat resp consumed) in A.
  split; [exact A|]. split.
  - rewrite E, app_assoc. apply last_last.
  - exists cl. destruct (invalid_content_false_inv _ _ V). auto.
Qed.

(** X14.  [True] means the whole body: when the Fetcher returns [True], the
    response was classified valid, the destination holds exactly the bytes
    of its body, and the last event is the completion one.  No bound on the
    sizes is needed. *)
Theorem download_true_means_whole_body
    (file_id dest : string) (server rest : download_script) (w w1 : world)
    (resp : response) (consumed : bool) :
  final_response file_id server w = (Returned (resp, consumed), w1, rest) ->
  fst (fst (download_video_file file_id dest server w)) = Returned true ->
  let w2 := snd (fst (download_video_file file_id dest server w)) in
  files w2 dest = Some (List.concat (body resp)) /\
  last (log w2) EvInvalidContent = EvDownloadComplete /\
  exists content_length,
    header_content_length resp = Ok content_length /\
    1000000 <= content_length /\
    contains "html" (lower (header_content_type resp)) = false.
Proof. exact (download_true_inv file_id dest server rest w w1 resp consumed). Qed.

Lemma download_true_means_whole_body_witness :
  final_response "f1" [Ok sample_media] sample_world
    = (Returned (sample_media, true), send (GetDownload "f1") sample_world, []) /\
  fst (fst (download_video_file "f1" TEMP_FILENAME [Ok sample_media] sample_world))
    = Returned true /\
  files (snd (fst (download_video_file "f1" TEMP_FILENAME [Ok sample_media] sample_world)))
    TEMP_FILENAME = Some [x00; x01; x02].
Proof.
  assert (F : final_response "f1" [Ok sample_media] sample_world
              = (Returned (sample_media, true), send (GetDownload "f1") sample_world, []))
    by reflexivity.
  assert (T : fst (fst (download_video_file "f1" TEMP_FILENAME [Ok sample_media]
                          sample_world)) = Returned true) by reflexivity.
  repeat (split; [assumption|]).
  exact (proj1 (download_true_means_whole_body "f1" TEMP_FILENAME [Ok sample_media] []
                  sample_world _ sample_media true F T)).
Defined.

(** X15.  Once a response is classified valid the Fetcher does not raise and
    does not clean up: it returns a boolean, the destination is replaced by
    the bytes copied so far, a leading part of the body, and the log gains
    percentages between 0 and 100 followed by one closing event, the
    completion when it returns [True] and the failure when it returns
    [False]. *)
Theorem download_valid_keeps_partial_copy
    (file_id dest : string) (server rest : download_script) (w w1 : world)
    (resp : response) (consumed : bool) (content_length : Z) :
  final_response file_id server w = (Returned (resp, consumed), w1, rest) ->
  header_content_length resp = Ok content_length ->
  contains "html" (lower (header_content_type resp)) = false ->
  1000000 <= content_length ->
  exists b w2 copied missing ps closing,
    download_video_file file_id dest server w = (Returned b, w2, rest) /\
    files w2 dest = Some copied /\
    List.concat (body resp) = (copied ++ missing)%list /\
    log w2 = (log w ++ map EvProgress ps ++ [closing])%list /\
    Forall (fun p => 0 <= p <= 100) ps /\
    (b = true -> missing = [] /\ closing = EvDownloadComplete) /\
    (b = false -> exists x, closing = EvDownloadFailed x).
Proof.
  intros F L H C.
  destruct (final_response_world _ _ _ _ _ _ _ F) as (_ & Lw & _).
  destruct (save_response_valid_shape dest resp consumed w1 content_length L
              (invalid_content_false _ _ H C))
    as (b & w' & k & ps & closing & R & A & B & B' & _ & _ & E & G).
  exists b, w', (List.concat (firstn k (fst (iter_content resp consumed)))),
    (List.concat (skipn k (fst (iter_content resp consumed)))), ps, closing.
  rewrite (download_from_final file_id dest _ _ _ _ _ _ F), R. cbn [fst snd].
  split; [reflexivity|]. split; [exact A|].
  split; [rewrite <- (iter_content_concat resp consumed); apply concat_firstn_prefix|].
  split; [now rewrite E, Lw|]. split; [exact G|]. split; [|exact B'].
  intros T. destruct (B T) as [K ->]. split; [|reflexivity].
  cbv zeta in K.
  pose proof (firstn_skipn k (fst (iter_content resp consumed))) as FS.
  rewrite K in FS.
  assert (Z0 : skipn k (fst (iter_content resp consumed)) = []).
  { apply (app_inv_head (fst (iter_content resp consumed))). now rewrite app_nil_r. }
  now rewrite Z0.
Qed.

Lemma download_valid_keeps_partial_copy_witness :
  final_response "f1" [Ok sample_form_page; Ok sample_broken] sample_world
    = (Returned (sample_broken, false),
       send (GetConfirm "f1" "t" "u") (send (GetDownload "f1") sample_world), []) /\
  header_content_length sample_broken = Ok 1000000 /\
  contains "html" (lower (header_content_type sample_broken)) = false /\
  1000000 <= 1000000 /\
  exists b w2 copied missing ps closing,
    download_video_file "f1" TEMP_FILENAME [Ok sample_form_page; Ok sample_broken]
      sample_world = (Returned b, w2, []) /\
    files w2 TEMP_FILENAME = Some copied /\
    List.concat (body sample_broken) = (copied ++ missing)%list /\
    log w2 = (log sample_world ++ map EvProgress ps ++ [closing])%list /\
    Forall (fun p => 0 <= p <= 100) ps /\
    (b = true -> missing = [] /\ closing = EvDownloadComplete) /\
    (b = false -> exists x, closing = EvDownloadFailed x).
Proof.
  assert (F : final_response "f1" [Ok sample_form_page; Ok sample_broken] sample_world
              = (Returned (sample_broken, false),
                 send (GetConfirm "f1" "t" "u") (send (GetDownload "f1") sample_world), []))
    by reflexivity.
  assert (L : header_content_length sample_broken = Ok 1000000) by reflexivity.
  assert (H : contains "html" (lower (header_content_type sample_broken)) = false)
    by reflexivity.
  assert (C : 1000000 <= 1000000) by discriminate.
  repeat (split; [assumption|]).
  exact (download_valid_keeps_partial_copy "f1" TEMP_FILENAME
           [Ok sample_form_page; Ok sample_broken] [] sample_world _ sample_broken
           false 1000000 F L H C).
Defined.

(** ** The Credential Checker *)

(** X16.  The Checker makes exactly one request and touches no file.  When
    it returns it has logged exactly one verdict; when it does not return
    (an exception, or no answer), it has logged nothing. *)
Theorem test_token_one_request_one_verdict
    (token page_id : string) (server : api_script) (w : world) :
  exists out evs rest,
    test_token token page_id server w
      = (out, extend w evs [GetPage page_id token], rest) /\
    (out = Returned tt ->
     evs = [EvTokenValid] \/ exists res, evs = [EvTokenInvalid res]) /\
    (out <> Returned tt -> evs = []).
Proof.
  unfold test_token. rewrite send_extend.
  destruct server as [|[res|x] server].
  - exists Blocked, [], []. repeat split; auto; discriminate.
  - destruct (py_in "id" res) as [[|]|x].
    + exists (Returned tt), [EvTokenValid], server.
      rewrite emit_extend, extend_extend. split; [reflexivity|].
      split; [now left | intros N; now elim N].
    + exists (Returned tt), [EvTokenInvalid res], server.
      rewrite emit_extend, extend_extend. split; [reflexivity|].
      split; [right; now exists res | intros N; now elim N].
    + exists (Raised x), [], server. repeat split; auto; discriminate.
  - exists (Raised x), [], server. repeat split; auto; discriminate.
Qed.

(** X17.  On a JSON object the verdict depends on the presence of the key
    [id] alone, not on its value: present, the token is reported valid;
    absent, the response is reported as it came. *)
Theorem test_token_verdict_on_object
    (token page_id : string) (fields : list (string * json))
    (rest : api_script) (w : world) :
  test_token token page_id (Ok (JObj fields) :: rest) w
  = (Returned tt,
     extend w
       [match assoc "id" fields with
        | Some _ => EvTokenValid
        | None => EvTokenInvalid (JObj fields)
        end]
       [GetPage page_id token],
     rest).
Proof.
  unfold test_token, py_in. rewrite send_extend.
  destruct (assoc "id" fields); now rewrite emit_extend, extend_extend.
Qed.

(** X18.  The membership test is that of the value received: on a body that
    decodes to a JSON string, a token is reported valid as soon as the
    string contains the two letters [id]. *)
Theorem test_token_accepts_string_with_id
    (token page_id s : string) (rest : api_script) (w : world) :
  contains "id" s = true ->
  test_token token page_id (Ok (JStr s) :: rest) w
  = (Returned tt, extend w [EvTokenValid] [GetPage page_id token], rest).
Proof.
  intros C. unfold test_token, py_in. rewrite C.
  now rewrite send_extend, emit_extend, extend_extend.
Qed.

Lemma test_token_accepts_string_with_id_witness :
  contains "id" "invalid token" = true /\
  test_token "token" "page" [Ok (JStr "invalid token")] sample_world
  = (Returned tt, extend sample_world [EvTokenValid] [GetPage "page" "token"], []).
Proof.
  split; [reflexivity|].
  exact (test_token_accepts_string_with_id "token" "page" "invalid token" []
           sample_world eq_refl).
Defined.

(** ** The caller *)

Section Caller.

Local Open Scope list_scope.

Variables url page_id token : string.
Variable drive : download_script.
Variable graph : api_script.
Variable w : world.

Local Abbreviation file_id := (convert_drive_link_to_file_id url).
Local Abbreviation fetched := (download_video_file file_id TEMP_FILENAME drive w).
Local Abbreviation run := (threaded_process url page_id token drive graph w).

(** X19.  The Uploader starts only after a successful download: unless the
    Fetcher returns [True], the caller stops where the Fetcher stopped, with
    the world the Fetcher left and the replies of the Graph API unused. *)
Theorem upload_only_after_download :
  fst (fst fetched) <> Returned true ->
  snd (fst (fst run)) = snd (fst fetched) /\
  snd run = graph /\
  existsb is_post (sent (snd (fst (fst run)))) = existsb is_post (sent w).
Proof.
  intros N. pose proof (download_posts_nothing file_id TEMP_FILENAME drive w) as P.
  unfold threaded_process.
  destruct (download_video_file file_id TEMP_FILENAME drive w)
    as [[[[]|x|] w1] drive']; cbn [fst snd] in *; auto.
  now elim N.
Qed.

(** X21.  What is uploaded is what was downloaded: after a download that
    returned [True], the requests of the Uploader are the Start request
    carrying the number of bytes of the body, then transfers of non-empty
    runs of consecutive bytes of that body, then possibly the Finish
    request, whatever the Graph API answers. *)
Theorem upload_sends_what_was_downloaded
    (rest : download_script) (w1 : world) (resp : response) (consumed : bool) :
  final_response file_id drive w = (Returned (resp, consumed), w1, rest) ->
  fst (fst fetched) = Returned true ->
  exists evs reqs,
    snd (fst (fst run)) = extend (snd (fst fetched)) evs reqs /\
    upload_requests (Some (List.concat (body resp))) page_id token reqs.
Proof.
  intros F T.
  destruct (download_true_inv file_id TEMP_FILENAME drive rest w w1 resp consumed F T)
    as (A & _). cbv zeta in A.
  unfold threaded_process.
  destruct (download_video_file file_id TEMP_FILENAME drive w)
    as [[out w2] drive']; cbn [fst snd] in *. subst out.
  destruct (upload_shape TEMP_FILENAME page_id token graph w2)
    as (out & evs & reqs & rest' & R & _ & _ & Sh & _).
  rewrite R. cbn [fst snd]. exists evs, reqs. split; [reflexivity|].
  now rewrite A in Sh.
Qed.

(** X20.  An exception leaves the caller exactly when it leaves the Fetcher:
    the caller adds no handler of its own, and the Uploader lets none out. *)
Theorem caller_raises_iff_fetcher_raises (x : exn) :
  fst (fst (fst run)) = Raised x <-> fst (fst fetched) = Raised x.
Proof.
  unfold threaded_process.
  destruct (download_video_file file_id TEMP_FILENAME drive w)
    as [[[[]|y|] w1] drive']; cbn [fst snd].
  - destruct (upload_shape TEMP_FILENAME page_id token graph w1)
      as (out & evs & reqs & rest & R & O & _).
    rewrite R. cbn [fst]. split; [|discriminate].
    intros H. destruct O as [-> | [-> _]]; discriminate.
  - split; discriminate.
  - split; intros H; injection H as ->; reflexivity.
  - split; discriminate.
Qed.

End Caller.

Lemma upload_only_after_download_witness :
  fst (fst (download_video_file
              (convert_drive_link_to_file_id "https://drive.google.com/file/d/f1/view")
              TEMP_FILENAME [Ok sample_page] sample_world)) <> Returned true /\
  snd (threaded_process "https://drive.google.com/file/d/f1/view" "page" "token"
         [Ok sample_page] [ok_object sample_start] sample_world)
    = [ok_object sample_start] /\
  sent (snd (fst (fst (threaded_process "https://drive.google.com/file/d/f1/view"
                         "page" "token" [Ok sample_page] [ok_object sample_start]
                         sample_world))))
    = [GetDownload "f1"].
Proof.
  assert (N : fst (fst (download_video_file
                          (convert_drive_link_to_file_id
                             "https://drive.google.com/file/d/f1/view")
                          TEMP_FILENAME [Ok sample_page] sample_world))
              <> Returned true) by discriminate.
  split; [exact N|].
  split; [|reflexivity].
  exact (proj1 (proj2 (upload_only_after_download
                         "https://drive.google.com/file/d/f1/view" "page" "token"
                         [Ok sample_page] [ok_object sample_start] sample_world N))).
Defined.

Lemma upload_sends_what_was_downloaded_witness :
  final_response (convert_drive_link_to_file_id "https://drive.google.com/open?id=f1")
    [Ok sample_media] sample_world
    = (Returned (sample_media, true), send (GetDownload "f1") sample_world, []) /\
  fst (fst (download_video_file
              (convert_drive_link_to_file_id "https://drive.google.com/open?id=f1")
              TEMP_FILENAME [Ok sample_media] sample_world)) = Returned true /\
  exists evs reqs,
    snd (fst (fst (threaded_process "https://drive.google.com/open?id=f1" "page" "token"
                     [Ok sample_media] [ok_object sample_start] sample_world)))
      = extend (snd (fst (download_video_file
                            (convert_drive_link_to_file_id
                               "https://drive.google.com/open?id=f1")
                            TEMP_FILENAME [Ok sample_media] sample_world))) evs reqs /\
    upload_requests (Some [x00; x01; x02]) "page" "token" reqs.
Proof.
  assert (F : final_response
                (convert_drive_link_to_file_id "https://drive.google.com/open?id=f1")
                [Ok sample_media] sample_world
              = (Returned (sample_media, true), send (GetDownload "f1") sample_world, []))
    by reflexivity.
  assert (T : fst (fst (download_video_file
                          (convert_drive_link_to_file_id
                             "https://drive.google.com/open?id=f1")
                          TEMP_FILENAME [Ok sample_media] sample_world))
              = Returned true) by reflexivity.
  repeat (split; [assumption|]).
  exact (upload_sends_what_was_downloaded "https://drive.google.com/open?id=f1"
           "page" "token" [Ok sample_media] [ok_object sample_start] sample_world
           [] _ sample_media true F T).
Defined.

Example caller_uploads_the_download :
  let '(out, w2, _, _) :=
    threaded_process "https://drive.google.com/open?id=f1" "page" "token"
      [Ok sample_media]
      [ok_object [("upload_session_id", JStr "s1"); ("video_id", JStr "987");
                  ("start_offset", JStr "0"); ("end_offset", JStr "3")];
       ok_object [("start_offset", JStr "3"); ("end_offset", JStr "3")];
       Ok sample_finish] sample_world in
  out = Returned tt /\
  sent w2 = [GetDownload "f1"; PostStart "page" "token" 3;
             PostTransfer "page" (JStr "s1") (JStr "0") "token" [x00; x01; x02];
             PostFinish "page" (JStr "s1") "token"].
Proof. split; reflexivity. Qed.
